(** * The missing-episode report: a shallow embedding of
      [pl_report_missing_episodes_claude.py]

    The script walks the TV libraries of a media server, resolves every show
    against a remote catalogue (with an on-disk cache), builds an inventory of
    the files the server knows, and writes one spreadsheet row per catalogue
    episode.  The embedding keeps the script's structure: the catalogue
    resolver [get_tvdb_data], the per-show routine [process_show] with its
    inventory and reconciliation loops, and the driver [main] as a machine
    that an interrupt can interleave with. *)

From Stdlib Require Import ZArith String Ascii List Lia Bool.
From stdpp Require Import base option list gmap strings.

Local Open Scope string_scope.
Local Open Scope nat_scope.

(** ** Strings, the way the script uses them *)

Module Str.

Definition newline : string := String (ascii_of_nat 10) EmptyString.

(** [sep.join(l)] *)
Fixpoint join (sep : string) (l : list string) : string :=
  match l with
  | [] => ""
  | x :: rest =>
      match rest with
      | [] => x
      | _ :: _ => x ++ sep ++ join sep rest
      end
  end.

Fixpoint drop (n : nat) (s : string) : string :=
  match n, s with
  | O, _ => s
  | S _, EmptyString => EmptyString
  | S n', String _ s' => drop n' s'
  end.

(** Leftmost occurrence of [sep] in [s]: what precedes it and what
    follows it. *)
Fixpoint cut (sep s : string) : option (string * string) :=
  if String.prefix sep s then Some ("", drop (String.length sep) s)
  else
    match s with
    | EmptyString => None
    | String c s' =>
        match cut sep s' with
        | Some (before, after) => Some (String c before, after)
        | None => None
        end
    end.

(** [sub in s] *)
Definition contains (sub s : string) : bool :=
  match cut sub s with Some _ => true | None => false end.

(** [s.split(sep)[1]], for a non-empty [sep]; [None] is the IndexError. *)
Definition split_second (sep s : string) : option string :=
  match cut sep s with
  | None => None
  | Some (_, rest) =>
      match cut sep rest with
      | Some (piece, _) => Some piece
      | None => Some rest
      end
  end.

End Str.

(** ** Data of the catalogue *)

(** The value under a season's ["type"] key, as the two places that read it
    can tell it apart: the key may be missing, hold [null], hold a plain
    string, or hold a non-empty object whose own ["type"] entry is [null]
    ([None]) or a string. *)
Inductive SeasonType :=
| TypeMissing
| TypeNull
| TypeText (s : string)
| TypeRecord (inner : option string).

(** An entry of the series' ["seasons"] list. *)
Record SeasonRef := {
  ref_id : Z;
  ref_number : Z;
  ref_type : SeasonType
}.

Record SeriesData := { series_seasons : list SeasonRef }.

(** An episode of the catalogue; [ep_name] is [None] when the catalogue
    gives [null] for the name (an absent key reads as the empty string), and
    so is [ep_aired] for a date that is absent or [null]. *)
Record EpisodeData := {
  ep_number : Z;
  ep_name : option string;
  ep_aired : option string
}.

(** What [get_season_extended] returns; [season_name] is [None] when the
    catalogue gives [null] for the name. *)
Record SeasonData := {
  season_number : Z;
  season_name : option string;
  season_episodes : list EpisodeData
}.

(** [show_data = {"series": ..., "seasons": [...]}] *)
Record ShowData := {
  series : SeriesData;
  seasons : list SeasonData
}.

Record SearchResult := {
  sr_tvdb_id : string;
  sr_name : string;
  sr_year : option Z
}.

(** A call either returns or raises with the text of [str(e)]. *)
Inductive result (A : Type) :=
| Ok (a : A)
| Raise (msg : string).
Arguments Ok {A} a.
Arguments Raise {A} msg.

Record TvdbClient := {
  search : string -> result (list SearchResult);
  get_series_extended : string -> result SeriesData;
  get_season_extended : Z -> result SeasonData
}.

(** ** Data of the media server *)

(** An episode object: [iterParts] lists the backing files in order; an
    entry [None] stands for the point where obtaining the next part or its
    file raises. *)
Record PlexEpisode := {
  seasonNumber : Z;
  index : Z;
  locations : list string;
  iterParts : list (option string)
}.

(** A show: [year] is [None] for a show without a year ([None], or no such
    attribute, which reads as the empty text); [guids] holds the [id] of
    every guid; [episodes] is [None] when the call raises. *)
Record PlexShow := {
  title : string;
  year : option Z;
  guids : list string;
  episodes : option (list PlexEpisode)
}.

(** A library section; [lib_search] is [None] when [library.search()]
    raises. *)
Record Library := {
  lib_type : string;
  lib_title : string;
  lib_search : option (list PlexShow)
}.

(** ** The inventory of local files *)

(** An episode object stored in the inventory, with the attribute the
    builder may add to it. *)
Record StoredEpisode := {
  stored : PlexEpisode;
  combined_locations : option (list string)
}.

Record Inventory := {
  plex_episodes : gmap Z (gmap Z StoredEpisode);
  plex_episodes_count : gmap Z (gmap Z nat)
}.

Definition empty_inventory : Inventory :=
  {| plex_episodes := ∅; plex_episodes_count := ∅ |}.

(** [d[season][episode]], [None] when either key is missing. *)
Definition lookup2 {V} (d : gmap Z (gmap Z V)) (season_num episode_num : Z) : option V :=
  d !! season_num ≫= fun inner => inner !! episode_num.

(** [d[season][episode] = v], for a season already present in [d]. *)
Definition store2 {V} (d : gmap Z (gmap Z V)) (season_num episode_num : Z) (v : V)
  : gmap Z (gmap Z V) :=
  <[season_num := <[episode_num := v]> (default ∅ (d !! season_num))]> d.

Definition truthy {A} (l : list A) : bool :=
  match l with [] => false | _ :: _ => true end.

Section Inventory.

(** [str(Path(file.replace(...)).absolute())]: depends on the working
    directory of the process. *)
Variable absolute_path : string -> string.

(** Lines 257-259. *)
Definition open_season (season_num : Z) (inv : Inventory) : Inventory :=
  match plex_episodes inv !! season_num with
  | Some _ => inv
  | None =>
      {| plex_episodes := <[season_num := ∅]> (plex_episodes inv);
         plex_episodes_count := <[season_num := ∅]> (plex_episodes_count inv) |}
  end.

(** Lines 262-286: one backing file of [episode]. *)
Definition add_part (episode : PlexEpisode) (file : string) (inv : Inventory) : Inventory :=
  let season_num := seasonNumber episode in
  let episode_num := index episode in
  let episode_file_path := absolute_path file in
  let count :=
    match lookup2 (plex_episodes_count inv) season_num episode_num with
    | None => 1
    | Some n => n + 1
    end in
  let counts := store2 (plex_episodes_count inv) season_num episode_num count in
  match lookup2 (plex_episodes inv) season_num episode_num with
  | Some existing_ep =>
      if truthy (locations episode) then
        let combined :=
          match combined_locations existing_ep with
          | Some paths => (paths ++ [episode_file_path])%list
          | None => [episode_file_path]
          end in
        {| plex_episodes :=
             store2 (plex_episodes inv) season_num episode_num
               {| stored := stored existing_ep; combined_locations := Some combined |};
           plex_episodes_count := counts |}
      else
        {| plex_episodes := plex_episodes inv; plex_episodes_count := counts |}
  | None =>
      {| plex_episodes :=
           store2 (plex_episodes inv) season_num episode_num
             {| stored := episode;
                combined_locations :=
                  if truthy (locations episode) then Some [episode_file_path] else None |};
         plex_episodes_count := counts |}
  end.

(** The loop over [episode.iterParts()]; the flag tells whether it raised. *)
Fixpoint add_parts (episode : PlexEpisode) (parts : list (option string)) (inv : Inventory)
  : Inventory * bool :=
  match parts with
  | [] => (inv, false)
  | None :: _ => (inv, true)
  | Some file :: rest => add_parts episode rest (add_part episode file inv)
  end.

(** The loop over the episodes; it stops at the first exception, and what
    was stored until then stays. *)
Fixpoint add_episodes (eps : list PlexEpisode) (inv : Inventory) : Inventory * bool :=
  match eps with
  | [] => (inv, false)
  | episode :: rest =>
      let '(inv', raised) :=
        add_parts episode (iterParts episode) (open_season (seasonNumber episode) inv) in
      if raised then (inv', true) else add_episodes rest inv'
  end.

(** Lines 245-290: the [try] block and its handler, which only logs. *)
Definition build_inventory (show : PlexShow) : Inventory :=
  match episodes show with
  | None => empty_inventory
  | Some eps => fst (add_episodes eps empty_inventory)
  end.

End Inventory.

(** ** The workbook *)

Inductive Cell :=
| CellString (s : string)
| CellNumber (z : Z)
| CellBoolean (b : bool).

(** A worksheet as the store of the cells the script has written so far. *)
Abbreviation Sheet := (gmap (nat * nat) Cell).

(** The values the script hands to the untyped [write]. *)
Inductive PyValue :=
| PyNone
| PyInt (z : Z)
| PyStr (s : string).

(** The untyped [write] with no format: a number and a non-empty text set
    the cell; [None] and the empty text are blanks, which the writer ignores
    when no format comes with them, so the cell stays as it was.  (The
    writer's reading of a text that begins with [=] as a formula, or with a
    link scheme as a link, is left out.) *)
Definition write (sheet : Sheet) (row col : nat) (v : PyValue) : Sheet :=
  match v with
  | PyNone => sheet
  | PyStr EmptyString => sheet
  | PyInt z => <[(row, col) := CellNumber z]> sheet
  | PyStr s => <[(row, col) := CellString s]> sheet
  end.

(** [write_string] of a text, the empty one included. *)
Definition write_string (sheet : Sheet) (row col : nat) (s : string) : Sheet :=
  <[(row, col) := CellString s]> sheet.

(** [write_string] of what may be [None]: the writer takes the length of its
    argument first, which raises for [None] ([None] here). *)
Definition write_string_opt (sheet : Sheet) (row col : nat) (s : option string)
  : option Sheet :=
  match s with
  | Some text => Some (write_string sheet row col text)
  | None => None
  end.

Definition write_boolean (sheet : Sheet) (row col : nat) (b : bool) : Sheet :=
  <[(row, col) := CellBoolean b]> sheet.

Record Workbook := {
  main_sheet : Sheet;
  not_found_sheet : Sheet;
  error_sheet : Sheet;
  closed : bool
}.

Definition headers : list string :=
  [ "Plex Library Title"; "TV Show Title"; "TV Show Year"; "Number of Seasons";
    "Season Number"; "Season Title"; "Number of Episodes"; "Episode Number";
    "Episode Aired Date"; "Is Plex Missing"; "Is Plex Duplicate"; "Episode Title";
    "File on Disk" ].

(** [for col, header in enumerate(headers): sheet.write(0, col, header, ...)];
    the format given with a header text matters to what the cell holds only
    for an empty text, and no header is empty. *)
Fixpoint write_headers (sheet : Sheet) (col : nat) (hs : list string) : Sheet :=
  match hs with
  | [] => sheet
  | header :: rest => write_headers (write sheet 0 col (PyStr header)) (S col) rest
  end.

Definition error_headers : list string :=
  [ "Plex Library Title"; "TV Show Title"; "TV Show Year"; "Error Details" ].

(** The module-level workbook after [setup_worksheets] (formats, filters and
    frozen panes carry no data). *)
Definition setup_worksheets : Workbook :=
  {| main_sheet := write_headers ∅ 0 headers;
     not_found_sheet := write_headers ∅ 0 error_headers;
     error_sheet := write_headers ∅ 0 error_headers;
     closed := false |}.

(** ** The cache directory and the clock *)

(** A file of the cache directory: its modification time and what
    [json.load] makes of it ([None]: reading or parsing raises). *)
Record CacheFile := {
  mtime : Z;
  content : option ShowData
}.

(** What the resolver does to the outside world, in order. *)
Inductive Action :=
| Searched (show_title : string)
| FetchedSeries (tvdb_id : string)
| FetchedSeason (season_id : Z)
| ReadCache (cache_file : string)
| WroteCache (cache_file : string).

(** How writing a cache file can go wrong, with the text of the exception:
    the open for writing is refused and the file stays as it was, or the open
    succeeds, which truncates the file, and the dump into it fails. *)
Inductive WriteFault :=
| OpenRefused (e : string)
| DumpFailed (e : string).

(** The surroundings of a run: the cache directory, the wall clock (in
    microseconds, the resolution of [datetime]), which files cannot be
    written and how, and the log of actions. *)
Record World := {
  files : gmap string CacheFile;
  now : Z;
  write_error : string -> option WriteFault;
  actions : list Action
}.

Definition record (a : Action) (w : World) : World :=
  {| files := files w; now := now w; write_error := write_error w;
     actions := actions w ++ [a] |}.

Definition CACHE_DIR : string := "./cache".
Definition CACHE_EXPIRY_DAYS : Z := 14.

(** [timedelta(days=d)] *)
Definition timedelta_days (d : Z) : Z := (d * 86400 * 1000000)%Z.

Definition get_cache_filename (tvdb_id : string) : string :=
  CACHE_DIR ++ "/" ++ "tvdb_" ++ tvdb_id ++ ".json".

Definition is_cache_valid (w : World) (cache_file : string) : bool :=
  match files w !! cache_file with
  | None => false
  | Some f =>
      let file_time := mtime f in
      let expiry_date := (now w - timedelta_days CACHE_EXPIRY_DAYS)%Z in
      (expiry_date <? file_time)%Z
  end.

(** ** The catalogue resolver *)

Inductive Resolution :=
| Resolved (show_data : ShowData)
| Failed (error : string).

(** [if not tvdb_id] *)
Definition no_id (tvdb_id : option string) : bool :=
  match tvdb_id with
  | None | Some EmptyString => true
  | Some (String _ _) => false
  end.

(** [show_year and str(result.get("year", "")) == str(show_year)]; a result
    whose year is missing or is no number has [sr_year = None], and its
    rendering never equals that of an integer. *)
Definition year_matches (show_year : option Z) (r : SearchResult) : bool :=
  match show_year with
  | None => false
  | Some y =>
      negb (y =? 0)%Z &&
      match sr_year r with
      | Some y' => (y' =? y)%Z
      | None => false
      end
  end.

(** Lines 140-144: the scan with its [break]. *)
Fixpoint year_match (show_year : option Z) (search_results : list SearchResult)
  : option SearchResult :=
  match search_results with
  | [] => None
  | r :: rest => if year_matches show_year r then Some r else year_match show_year rest
  end.

(** Lines 140-148. *)
Definition best_match (show_year : option Z) (search_results : list SearchResult)
  : option SearchResult :=
  match year_match show_year search_results with
  | Some r => Some r
  | None => head search_results
  end.

(** Lines 130-159: the identifier to use, or the error to return. *)
Definition resolve_id (tvdb_client : TvdbClient) (show_title : string)
    (show_year : option Z) (tvdb_id : option string) (w : World)
  : (string + string) * World :=
  if no_id tvdb_id then
    let w := record (Searched show_title) w in
    match search tvdb_client show_title with
    | Raise e => (inr ("TVDB search error: " ++ e), w)
    | Ok [] => (inr "Not found on TVDB", w)
    | Ok search_results =>
        match best_match show_year search_results with
        | Some r => (inl (sr_tvdb_id r), w)
        | None => (inr "No suitable match found", w)
        end
    end
  else (inl (default "" tvdb_id), w).

(** Line 182: whether the season is passed over; [Raise] carries the text
    of the KeyError or TypeError of the subscripts. *)
Definition skips (season : SeasonRef) : result bool :=
  match ref_type season with
  | TypeMissing => Raise "'type'"
  | TypeNull => Ok false
  | TypeText EmptyString => Ok false
  | TypeText (String _ _) => Raise "string indices must be integers"
  | TypeRecord None => Ok false
  | TypeRecord (Some t) =>
      Ok (negb (String.eqb t "") && negb (String.eqb t "official"))
  end.

(** Lines 181-192. *)
Fixpoint fetch_seasons (tvdb_client : TvdbClient) (refs : list SeasonRef)
    (fetched : list SeasonData) (w : World) : result (list SeasonData) * World :=
  match refs with
  | [] => (Ok fetched, w)
  | season :: rest =>
      match skips season with
      | Raise e => (Raise e, w)
      | Ok true => fetch_seasons tvdb_client rest fetched w
      | Ok false =>
          let w := record (FetchedSeason (ref_id season)) w in
          match get_season_extended tvdb_client (ref_id season) with
          | Ok season_extended =>
              fetch_seasons tvdb_client rest (fetched ++ [season_extended]) w
          | Raise _ => fetch_seasons tvdb_client rest fetched w
          end
      end
  end.

(** Lines 195-196: the text of the exception, if any, and the world after.
    A dump that fails leaves the file truncated by the open, with at most a
    part of the data in it: present, stamped now, and not parseable. *)
Definition save_cache (cache_file : string) (show_data : ShowData) (w : World)
  : option string * World :=
  match write_error w cache_file with
  | Some (OpenRefused e) => (Some e, w)
  | Some (DumpFailed e) =>
      (Some e,
       {| files := <[cache_file := {| mtime := now w; content := None |}]> (files w);
          now := now w; write_error := write_error w; actions := actions w |})
  | None =>
      (None,
       record (WroteCache cache_file)
         {| files := <[cache_file := {| mtime := now w; content := Some show_data |}]> (files w);
            now := now w; write_error := write_error w; actions := actions w |})
  end.

(** Lines 173-202. *)
Definition fetch_show (tvdb_client : TvdbClient) (tvdb_id cache_file : string) (w : World)
  : Resolution * World :=
  let w := record (FetchedSeries tvdb_id) w in
  match get_series_extended tvdb_client tvdb_id with
  | Raise e => (Failed ("TVDB API error: " ++ e), w)
  | Ok series_data =>
      match fetch_seasons tvdb_client (series_seasons series_data) [] w with
      | (Raise e, w) => (Failed ("TVDB API error: " ++ e), w)
      | (Ok fetched, w) =>
          let show_data := {| series := series_data; seasons := fetched |} in
          match save_cache cache_file show_data w with
          | (Some e, w) => (Failed ("TVDB API error: " ++ e), w)
          | (None, w) => (Resolved show_data, w)
          end
      end
  end.

Definition get_tvdb_data (tvdb_client : TvdbClient) (show_title : string)
    (show_year : option Z) (tvdb_id : option string) (w : World)
  : Resolution * World :=
  match resolve_id tvdb_client show_title show_year tvdb_id w with
  | (inr error, w) => (Failed error, w)
  | (inl tvdb_id, w) =>
      let cache_file := get_cache_filename tvdb_id in
      if is_cache_valid w cache_file then
        let w := record (ReadCache cache_file) w in
        match files w !! cache_file ≫= content with
        | Some show_data => (Resolved show_data, w)
        | None => fetch_show tvdb_client tvdb_id cache_file w
        end
      else fetch_show tvdb_client tvdb_id cache_file w
  end.

(** ** One show *)

Fixpoint extract_tvdb_id (guids : list string) : option string :=
  match guids with
  | [] => None
  | guid :: rest =>
      if Str.contains "tvdb://" guid then Str.split_second "//" guid
      else extract_tvdb_id rest
  end.

(** Line 297. *)
Definition counted_official (season : SeasonRef) : bool :=
  match ref_type season with
  | TypeMissing | TypeNull => true
  | TypeText s => String.eqb s "official"
  | TypeRecord _ => false
  end.

(** Lines 322-338: [(is_missing, is_duplicate, file_path)]. *)
Definition reconcile (inv : Inventory) (season_num episode_num : Z) : bool * bool * string :=
  match lookup2 (plex_episodes inv) season_num episode_num with
  | None => (true, false, "")
  | Some plex_episode =>
      let is_duplicate :=
        match lookup2 (plex_episodes_count inv) season_num episode_num with
        | Some n => Nat.ltb 1 n
        | None => false
        end in
      let file_path :=
        match combined_locations plex_episode with
        | Some (p :: ps) => Str.join Str.newline (p :: ps)
        | _ =>
            if truthy (locations (stored plex_episode))
            then Str.join Str.newline (locations (stored plex_episode))
            else ""
        end in
      (false, is_duplicate, file_path)
  end.

(** The thirteen values of a main-sheet row, in column order; the two
    names are [None] where the catalogue gives [null]. *)
Record ReportRow := {
  row_library : string;
  row_show : string;
  row_year : option Z;
  row_num_seasons : nat;
  row_season_num : Z;
  row_season_name : option string;
  row_num_episodes : nat;
  row_episode_num : Z;
  row_air_date : string;
  row_is_missing : bool;
  row_is_duplicate : bool;
  row_episode_title : option string;
  row_file_path : string
}.

Definition py_year (show_year : option Z) : PyValue :=
  match show_year with
  | Some y => PyInt y
  | None => PyNone
  end.

(** Lines 341-353: the sheet after the writes and whether all thirteen were
    made.  The sheet is the one object the whole run writes to, so when a
    [write_string] raises the cells written before it stay. *)
Definition write_row (sheet : Sheet) (row_index : nat) (r : ReportRow) : Sheet * bool :=
  let sheet := write_string sheet row_index 0 (row_library r) in
  let sheet := write_string sheet row_index 1 (row_show r) in
  let sheet := write sheet row_index 2 (py_year (row_year r)) in
  let sheet := write sheet row_index 3 (PyInt (Z.of_nat (row_num_seasons r))) in
  let sheet := write sheet row_index 4 (PyInt (row_season_num r)) in
  match write_string_opt sheet row_index 5 (row_season_name r) with
  | None => (sheet, false)
  | Some sheet =>
      let sheet := write sheet row_index 6 (PyInt (Z.of_nat (row_num_episodes r))) in
      let sheet := write sheet row_index 7 (PyInt (row_episode_num r)) in
      let sheet := write sheet row_index 8 (PyStr (row_air_date r)) in
      let sheet := write_boolean sheet row_index 9 (row_is_missing r) in
      let sheet := write_boolean sheet row_index 10 (row_is_duplicate r) in
      match write_string_opt sheet row_index 11 (row_episode_title r) with
      | None => (sheet, false)
      | Some sheet => (write_string sheet row_index 12 (row_file_path r), true)
      end
  end.

(** Lines 222-242: the error row, always at row 1 of the sheet chosen by the
    text of the error. *)
Definition write_error_row (sheet : Sheet) (plex_library_title show_title : string)
    (show_year : option Z) (error : string) : Sheet :=
  let error_row := 1 in
  let sheet := write_string sheet error_row 0 plex_library_title in
  let sheet := write_string sheet error_row 1 show_title in
  let sheet := write sheet error_row 2 (py_year show_year) in
  write_string sheet error_row 3 error.

Definition report_error (wb : Workbook) (plex_library_title show_title : string)
    (show_year : option Z) (error : string) : Workbook :=
  if Str.contains "Not found" error then
    {| main_sheet := main_sheet wb;
       not_found_sheet :=
         write_error_row (not_found_sheet wb) plex_library_title show_title show_year error;
       error_sheet := error_sheet wb;
       closed := closed wb |}
  else
    {| main_sheet := main_sheet wb;
       not_found_sheet := not_found_sheet wb;
       error_sheet :=
         write_error_row (error_sheet wb) plex_library_title show_title show_year error;
       closed := closed wb |}.

Section Show.

Variable absolute_path : string -> string.

Section Rows.

Variables (plex_library_title show_title : string) (show_year : option Z).
Variables (num_seasons : nat) (inv : Inventory).

(** Lines 313-338: the values of the row of one catalogue episode. *)
Definition report_row (season_data : SeasonData) (episode : EpisodeData) : ReportRow :=
  let season_num := season_number season_data in
  let episode_num := ep_number episode in
  let air_date := default "" (ep_aired episode) in
  let '(is_missing, is_duplicate, file_path) := reconcile inv season_num episode_num in
  {| row_library := plex_library_title;
     row_show := show_title;
     row_year := show_year;
     row_num_seasons := num_seasons;
     row_season_num := season_num;
     row_season_name := season_name season_data;
     row_num_episodes := length (season_episodes season_data);
     row_episode_num := episode_num;
     row_air_date := air_date;
     row_is_missing := is_missing;
     row_is_duplicate := is_duplicate;
     row_episode_title := ep_name episode;
     row_file_path := file_path |}.

(** Lines 312-355: the loop over the episodes of one season.  It gives the
    sheet as the loop leaves it and the row index reached, [None] when a
    write raised. *)
Fixpoint process_episodes (season_data : SeasonData) (eps : list EpisodeData)
    (sheet : Sheet) (row_index : nat) : Sheet * option nat :=
  match eps with
  | [] => (sheet, Some row_index)
  | episode :: rest =>
      match write_row sheet row_index (report_row season_data episode) with
      | (sheet, false) => (sheet, None)
      | (sheet, true) => process_episodes season_data rest sheet (row_index + 1)
      end
  end.

(** Lines 301-355: the loop over the seasons of the catalogue. *)
Fixpoint process_seasons (tvdb_seasons : list SeasonData) (sheet : Sheet) (row_index : nat)
  : Sheet * option nat :=
  match tvdb_seasons with
  | [] => (sheet, Some row_index)
  | season_data :: rest =>
      if truthy (season_episodes season_data) then
        match process_episodes season_data (season_episodes season_data) sheet row_index with
        | (sheet, None) => (sheet, None)
        | (sheet, Some row_index) => process_seasons rest sheet row_index
        end
      else process_seasons rest sheet row_index
  end.

End Rows.

(** [process_show] works on the workbook (module-level in the script) and
    the outside world.  It gives both as the call leaves them and the row
    index it returns, [None] when it raises instead of returning. *)
Definition process_show (show : PlexShow) (plex_library_title : string)
    (tvdb_client : TvdbClient) (row_index : nat) (wb : Workbook) (w : World)
  : Workbook * World * option nat :=
  let show_title := title show in
  let show_year := year show in
  let tvdb_id := extract_tvdb_id (guids show) in
  match get_tvdb_data tvdb_client show_title show_year tvdb_id w with
  | (Failed error, w) =>
      (report_error wb plex_library_title show_title show_year error, w, Some row_index)
  | (Resolved tvdb_data, w) =>
      let inv := build_inventory absolute_path show in
      let series_data := series tvdb_data in
      let tvdb_seasons := seasons tvdb_data in
      let official_seasons := List.filter counted_official (series_seasons series_data) in
      let num_seasons := length official_seasons in
      let '(sheet, returned) :=
        process_seasons plex_library_title show_title show_year num_seasons inv
          tvdb_seasons (main_sheet wb) row_index in
      ({| main_sheet := sheet;
          not_found_sheet := not_found_sheet wb;
          error_sheet := error_sheet wb;
          closed := closed wb |}, w, returned)
  end.

(** ** The driver *)

(** Where [main] stands between two steps. *)
Inductive Phase :=
| AtLibraries (libraries : list Library)
| AtShows (library_title : string) (shows : list PlexShow) (libraries : list Library)
| InShow (library_title : string) (show : PlexShow) (shows : list PlexShow)
    (libraries : list Library)
| AfterShows (libraries : list Library)
| Finished.

Record Run := {
  phase : Phase;
  row_index : nat;
  wb : Workbook;
  world : World;
  terminate : bool
}.

Definition close (book : Workbook) : Workbook :=
  {| main_sheet := main_sheet book; not_found_sheet := not_found_sheet book;
     error_sheet := error_sheet book; closed := true |}.

(** The [finally] clause. *)
Definition finish (r : Run) : Run :=
  {| phase := Finished; row_index := row_index r; wb := close (wb r);
     world := world r; terminate := terminate r |}.

Definition goto (p : Phase) (r : Run) : Run :=
  {| phase := p; row_index := row_index r; wb := wb r;
     world := world r; terminate := terminate r |}.

(** Lines 362-390; [sections] is [None] when connecting to either server
    or listing the sections raises. *)
Definition start (sections : option (list Library)) (w : World) : Run :=
  let r := {| phase := Finished; row_index := 1; wb := setup_worksheets;
              world := w; terminate := false |} in
  match sections with
  | None => finish r
  | Some sections =>
      match List.filter (fun section => String.eqb (lib_type section) "show") sections with
      | [] => finish r
      | libraries => goto (AtLibraries libraries) r
      end
  end.

Variable tvdb : TvdbClient.

(** One step of [main], lines 393-425.  When [process_show] raises, the
    handler of lines 411-413 prints and the loop goes on: the assignment of
    line 410 has not happened, so [row_index] is the one before the call,
    while what the call wrote to the sheets stays. *)
Definition step (r : Run) : Run :=
  match phase r with
  | AtLibraries [] => finish r
  | AtLibraries (library :: libraries) =>
      match lib_search library with
      | None => finish r
      | Some shows => goto (AtShows (lib_title library) shows libraries) r
      end
  | AtShows _ [] libraries => goto (AfterShows libraries) r
  | AtShows library_title (show :: shows) libraries =>
      if terminate r then goto (AfterShows libraries) r
      else goto (InShow library_title show shows libraries) r
  | InShow library_title show shows libraries =>
      let '(book, w, returned) :=
        process_show show library_title tvdb (row_index r) (wb r) (world r) in
      {| phase := AtShows library_title shows libraries;
         row_index := default (row_index r) returned;
         wb := book; world := w; terminate := terminate r |}
  | AfterShows libraries =>
      if terminate r then finish r else goto (AtLibraries libraries) r
  | Finished => r
  end.

(** [signal_handler]: it may run between any two steps. *)
Definition signal_handler (r : Run) : Run :=
  {| phase := phase r; row_index := row_index r; wb := wb r;
     world := world r; terminate := true |}.

Inductive Event :=
| Step
| Signal.

Definition react (r : Run) (e : Event) : Run :=
  match e with
  | Step => step r
  | Signal => signal_handler r
  end.

Definition run (events : list Event) (r : Run) : Run := fold_left react events r.

End Show.

(** ** Notions the statements use *)

(** How many backing files the builder counted for a key. *)
Definition occurrences (inv : Inventory) (season_num episode_num : Z) : nat :=
  default 0 (lookup2 (plex_episodes_count inv) season_num episode_num).

(** The file-path list of a stored record. *)
Definition file_paths (rec : StoredEpisode) : list string :=
  default [] (combined_locations rec).

(** What the builder guarantees about every record it stores: a record
    without the added attribute has no location of its own, and the added
    list is never empty. *)
Definition coherent (inv : Inventory) : Prop :=
  ∀ season_num episode_num rec,
    lookup2 (plex_episodes inv) season_num episode_num = Some rec →
    match combined_locations rec with
    | Some paths => paths ≠ []
    | None => locations (stored rec) = []
    end.

(** What a text written with the untyped [write] leaves in its cell. *)
Definition text_cell (s : string) : option Cell :=
  match s with
  | EmptyString => None
  | _ => Some (CellString s)
  end.

(** The cells a row stores, by column; [None] where nothing is stored: the
    year of a show without one, an empty air date. *)
Definition row_cells (r : ReportRow) : list (option Cell) :=
  [ Some (CellString (row_library r));
    Some (CellString (row_show r));
    CellNumber <$> row_year r;
    Some (CellNumber (Z.of_nat (row_num_seasons r)));
    Some (CellNumber (row_season_num r));
    CellString <$> row_season_name r;
    Some (CellNumber (Z.of_nat (row_num_episodes r)));
    Some (CellNumber (row_episode_num r));
    text_cell (row_air_date r);
    Some (CellBoolean (row_is_missing r));
    Some (CellBoolean (row_is_duplicate r));
    CellString <$> row_episode_title r;
    Some (CellString (row_file_path r)) ].

(** Rows written one below the other from [row_index] on. *)
Fixpoint write_rows (sheet : Sheet) (row_index : nat) (rows : list ReportRow) : Sheet :=
  match rows with
  | [] => sheet
  | r :: rest => write_rows (write_row sheet row_index r).1 (row_index + 1) rest
  end.

(** Both names of a row are texts. *)
Definition named (r : ReportRow) : bool :=
  match row_season_name r, row_episode_title r with
  | Some _, Some _ => true
  | _, _ => false
  end.

(** The rows the loop gets to before a write raises, the row it raises on
    included, and whether one does: it is the first row with a name that is
    no text. *)
Fixpoint written (rows : list ReportRow) : list ReportRow * bool :=
  match rows with
  | [] => ([], false)
  | r :: rest =>
      if named r then
        let '(reached, raised) := written rest in (r :: reached, raised)
      else ([r], true)
  end.

(** What a loop over rows gives: the sheet with the rows reached, and the
    index after the last row unless a write raised. *)
Definition looped (sheet : Sheet) (row_index : nat) (rows : list ReportRow)
  : Sheet * option nat :=
  (write_rows sheet row_index (written rows).1,
   if (written rows).2 then None else Some (row_index + length rows)).

(** The catalogue episodes of a show in the order the catalogue gives them,
    each with its season. *)
Definition canonical_episodes (tvdb_seasons : list SeasonData)
  : list (SeasonData * EpisodeData) :=
  flat_map (fun season_data => map (pair season_data) (season_episodes season_data))
    tvdb_seasons.

Definition has_episodes (season_data : SeasonData) : bool :=
  truthy (season_episodes season_data).

(** The name of the type of a season entry, when the entry has a type
    object with a non-empty name. *)
Definition type_name (season : SeasonRef) : option string :=
  match ref_type season with
  | TypeRecord (Some (String a rest)) => Some (String a rest)
  | _ => None
  end.

(** A season of another order than the aired one: its type has a name and
    the name is not "official". *)
Definition other_type (season : SeasonRef) : bool :=
  match type_name season with
  | Some name => negb (String.eqb name "official")
  | None => false
  end.

(** The seasons the fetch loop takes for official: those it does not pass
    over. *)
Definition is_official (season : SeasonRef) : bool :=
  match skips season with
  | Ok false => true
  | _ => false
  end.

(** The seasons [fetch_seasons] collects: those not passed over whose
    fetch returns. *)
Definition official_fetched (tvdb_client : TvdbClient) (refs : list SeasonRef)
  : list SeasonData :=
  flat_map (fun season =>
              match skips season with
              | Ok false =>
                  match get_season_extended tvdb_client (ref_id season) with
                  | Ok season_extended => [season_extended]
                  | Raise _ => []
                  end
              | _ => []
              end) refs.

(** The files the builder gets to handle, each with its episode: all of
    them up to the first failure. *)
Fixpoint handled_parts (episode : PlexEpisode) (parts : list (option string))
  : list (PlexEpisode * string) * bool :=
  match parts with
  | [] => ([], false)
  | None :: _ => ([], true)
  | Some file :: rest =>
      let '(entries, raised) := handled_parts episode rest in
      ((episode, file) :: entries, raised)
  end.

Fixpoint handled_episodes (eps : list PlexEpisode) : list (PlexEpisode * string) * bool :=
  match eps with
  | [] => ([], false)
  | episode :: rest =>
      let '(entries, raised) := handled_parts episode (iterParts episode) in
      if raised then (entries, true)
      else let '(entries', raised') := handled_episodes rest in
           ((entries ++ entries')%list, raised')
  end.

Definition handled (show : PlexShow) : list (PlexEpisode * string) :=
  match episodes show with
  | None => []
  | Some eps => (handled_episodes eps).1
  end.

Definition has_key (season_num episode_num : Z) (entry : PlexEpisode * string) : bool :=
  (seasonNumber entry.1 =? season_num)%Z && (index entry.1 =? episode_num)%Z.

(** What a failed attempt to store the data leaves of the cache file. *)
Definition truncated (cache_file : string) (w w' : World) : Prop :=
  files w' = <[cache_file := {| mtime := now w; content := None |}]> (files w).

(** The two dictionaries of the builder go together: they know the same
    seasons, and a key has a record exactly when it has a positive count. *)
Definition synced (inv : Inventory) : Prop :=
  (∀ season_num,
      plex_episodes inv !! season_num = None ↔ plex_episodes_count inv !! season_num = None) ∧
  (∀ season_num episode_num,
      is_Some (lookup2 (plex_episodes inv) season_num episode_num)
      ↔ 0 < occurrences inv season_num episode_num).

(** The paths a key should have collected from the files handled: those of
    the files of the key whose episode reports locations, in order. *)
Definition paths_for (absolute_path : string -> string) (season_num episode_num : Z)
    (entries : list (PlexEpisode * string)) : list string :=
  map (fun entry : PlexEpisode * string => absolute_path entry.2)
    (List.filter (fun entry => has_key season_num episode_num entry
                               && truthy (locations entry.1)) entries).

(** The inventory is the summary of the files handled so far. *)
Definition tracks (absolute_path : string -> string) (inv : Inventory)
    (entries : list (PlexEpisode * string)) : Prop :=
  synced inv ∧
  (∀ season_num episode_num,
      occurrences inv season_num episode_num
      = length (List.filter (has_key season_num episode_num) entries)) ∧
  (∀ season_num episode_num rec,
      lookup2 (plex_episodes inv) season_num episode_num = Some rec →
      file_paths rec = paths_for absolute_path season_num episode_num entries).

(** The show with another list of episodes. *)
Definition with_episodes (show : PlexShow) (eps : list PlexEpisode) : PlexShow :=
  {| title := title show; year := year show; guids := guids show; episodes := Some eps |}.

(** The rows of a resolved show. *)
Definition show_rows (absolute_path : string -> string) (show : PlexShow)
    (plex_library_title : string) (tvdb_data : ShowData) : list ReportRow :=
  map (fun entry : SeasonData * EpisodeData =>
         report_row plex_library_title (title show) (year show)
           (length (List.filter counted_official (series_seasons (series tvdb_data))))
           (build_inventory absolute_path show) entry.1 entry.2)
    (canonical_episodes (seasons tvdb_data)).

(** What a run has produced: the three sheets, the outside world and the
    next free row. *)
Definition outcome (r : Run) : Sheet * Sheet * Sheet * World * nat :=
  (main_sheet (wb r), not_found_sheet (wb r), error_sheet (wb r), world r, row_index r).

(** The program steps of a schedule. *)
Fixpoint steps (events : list Event) : nat :=
  match events with
  | [] => 0
  | Step :: rest => S (steps rest)
  | Signal :: rest => steps rest
  end.

(** An upper bound on the program steps left once the flag is set. *)
Definition remaining (r : Run) : nat :=
  match phase r with
  | Finished => 0
  | AfterShows _ => 1
  | AtShows _ _ _ => 2
  | AtLibraries _ | InShow _ _ _ _ => 3
  end.

(** A finished run has saved its workbook. *)
Definition sealed (r : Run) : Prop := phase r = Finished → closed (wb r) = true.

(** The run with the show in progress, if any, brought to its end. *)
Definition settled (absolute_path : string -> string) (tvdb : TvdbClient) (r : Run) : Run :=
  match phase r with
  | InShow _ _ _ _ => step absolute_path tvdb r
  | _ => r
  end.

(** ** The loops of [main], written as loops *)

(** Lines 404-413 without an interrupt: the shows of one library in turn,
    each from the row index and the state the one before left. *)
Fixpoint process_shows (absolute_path : string -> string) (tvdb : TvdbClient)
    (library_title : string) (shows : list PlexShow) (st : Workbook * World * nat)
  : Workbook * World * nat :=
  match shows with
  | [] => st
  | show :: rest =>
      let '(book, w, row) := st in
      let '(book, w, returned) :=
        process_show absolute_path show library_title tvdb row book w in
      process_shows absolute_path tvdb library_title rest (book, w, default row returned)
  end.

(** Lines 393-416 without an interrupt: the libraries in turn, up to the
    first one whose listing raises. *)
Fixpoint process_libraries (absolute_path : string -> string) (tvdb : TvdbClient)
    (libraries : list Library) (st : Workbook * World * nat) : Workbook * World * nat :=
  match libraries with
  | [] => st
  | library :: rest =>
      match lib_search library with
      | None => st
      | Some shows =>
          process_libraries absolute_path tvdb rest
            (process_shows absolute_path tvdb (lib_title library) shows st)
      end
  end.

(** The program steps the machine needs for these libraries. *)
Fixpoint budget (libraries : list Library) : nat :=
  match libraries with
  | [] => 1
  | library :: rest =>
      match lib_search library with
      | None => 1
      | Some shows => 3 + 2 * length shows + budget rest
      end
  end.

Definition is_signal (e : Event) : bool :=
  match e with
  | Signal => true
  | Step => false
  end.

(** What holds of the sheets at every point of a run: the row index is past
    the header, the header rows are the ones [setup_worksheets] wrote, and the
    error sheets hold nothing below row 1. *)
Definition tidy (r : Run) : Prop :=
  1 ≤ row_index r ∧
  (∀ c, main_sheet (wb r) !! (0, c) = main_sheet setup_worksheets !! (0, c)) ∧
  (∀ c, not_found_sheet (wb r) !! (0, c) = not_found_sheet setup_worksheets !! (0, c)) ∧
  (∀ c, error_sheet (wb r) !! (0, c) = error_sheet setup_worksheets !! (0, c)) ∧
  (∀ i c, 2 ≤ i → not_found_sheet (wb r) !! (i, c) = None ∧ error_sheet (wb r) !! (i, c) = None).

(** ** Sample data *)

Module Sample.

Definition pilot : EpisodeData :=
  {| ep_number := 1; ep_name := Some "Pilot"; ep_aired := Some "2005-01-01" |}.
Definition second : EpisodeData :=
  {| ep_number := 2; ep_name := Some "Second"; ep_aired := None |}.

Definition season1 : SeasonData :=
  {| season_number := 1; season_name := Some "Season 1"; season_episodes := [pilot; second] |}.

(** The catalogue marks an aired-order season with a type object. *)
Definition official_ref : SeasonRef :=
  {| ref_id := 10; ref_number := 1; ref_type := TypeRecord (Some "official") |}.

Definition series1 : SeriesData := {| series_seasons := [official_ref] |}.

Definition data1 : ShowData := {| series := series1; seasons := [season1] |}.

Definition hits : list SearchResult :=
  [ {| sr_tvdb_id := "70001"; sr_name := "The Show"; sr_year := Some 1999%Z |};
    {| sr_tvdb_id := "70002"; sr_name := "The Show (2005)"; sr_year := Some 2005%Z |};
    {| sr_tvdb_id := "70003"; sr_name := "The Show Again"; sr_year := Some 2005%Z |} ].

Definition client : TvdbClient :=
  {| search := fun _ => Ok hits;
     get_series_extended := fun _ => Ok series1;
     get_season_extended := fun _ => Ok season1 |}.

(** A catalogue that knows no show by that title. *)
Definition empty_client : TvdbClient :=
  {| search := fun _ => Ok [];
     get_series_extended := fun _ => Ok series1;
     get_season_extended := fun _ => Ok season1 |}.

(** A catalogue whose calls raise. *)
Definition failing_client : TvdbClient :=
  {| search := fun _ => Raise "Not found";
     get_series_extended := fun _ => Raise "connection reset";
     get_season_extended := fun _ => Raise "connection reset" |}.

Definition file1 : PlexEpisode :=
  {| seasonNumber := 1; index := 1;
     locations := ["/media/s01e01.mkv"]; iterParts := [Some "/media/s01e01.mkv"] |}.

Definition file2 : PlexEpisode :=
  {| seasonNumber := 1; index := 2;
     locations := ["/media/s01e02.mkv"]; iterParts := [Some "/media/s01e02.mkv"] |}.

(** An episode whose file cannot be obtained. *)
Definition broken1 : PlexEpisode :=
  {| seasonNumber := 1; index := 1;
     locations := ["/media/s01e01.mkv"]; iterParts := [None] |}.

Definition show1 : PlexShow :=
  {| title := "The Show"; year := Some 2005%Z;
     guids := ["imdb://tt0000001"; "tvdb://121361"];
     episodes := Some [file1] |}.

(** The same show with a failing first episode and a sound second one. *)
Definition show_broken : PlexShow :=
  {| title := "The Show"; year := Some 2005%Z;
     guids := ["imdb://tt0000001"; "tvdb://121361"];
     episodes := Some [broken1; file2] |}.

(** A show the server has no catalogue identifier for. *)
Definition show_unknown : PlexShow :=
  {| title := "The Show"; year := Some 2005%Z; guids := []; episodes := Some [file1] |}.

Definition cache_file1 : string := "./cache/tvdb_121361.json".

Definition day : Z := 86400000000.

(** An empty cache directory at day 100. *)
Definition world0 : World :=
  {| files := ∅; now := (100 * day)%Z; write_error := fun _ => None; actions := [] |}.

(** The cache directory refuses writes. *)
Definition world_readonly : World :=
  {| files := ∅; now := (100 * day)%Z;
     write_error := fun _ => Some (OpenRefused "[Errno 13] Permission denied");
     actions := [] |}.

(** The cache directory takes new files but has no room for their
    content. *)
Definition world_full : World :=
  {| files := ∅; now := (100 * day)%Z;
     write_error := fun _ => Some (DumpFailed "No space left on device");
     actions := [] |}.

(** A cache file written a day ago that does not parse. *)
Definition world_garbled : World :=
  {| files := {[ cache_file1 := {| mtime := (99 * day)%Z; content := None |} ]};
     now := (100 * day)%Z; write_error := fun _ => None; actions := [] |}.

(** A cache file written a day ago. *)
Definition world_cached : World :=
  {| files := {[ cache_file1 := {| mtime := (99 * day)%Z; content := Some data1 |} ]};
     now := (100 * day)%Z; write_error := fun _ => None; actions := [] |}.

(** A cache file written twenty days ago. *)
Definition world_stale : World :=
  {| files := {[ cache_file1 := {| mtime := (80 * day)%Z; content := Some data1 |} ]};
     now := (100 * day)%Z; write_error := fun _ => None; actions := [] |}.

Definition tv : Library :=
  {| lib_type := "show"; lib_title := "TV"; lib_search := Some [show1; show_unknown] |}.

Definition films : Library :=
  {| lib_type := "movie"; lib_title := "Films"; lib_search := Some [] |}.

End Sample.

(** The season entries whose ["type"] is [null]. *)
Definition null_typed (season : SeasonRef) : bool :=
  match ref_type season with
  | TypeNull => true
  | _ => false
  end.

Module Cases.

(** A library whose listing raises. *)
Definition unlisted : Library :=
  {| lib_type := "show"; lib_title := "Kids"; lib_search := None |}.

(** [main] about to list that library, with another one after it. *)
Definition at_unlisted : Run :=
  {| phase := AtLibraries [unlisted; Sample.tv]; row_index := 1; wb := setup_worksheets;
     world := Sample.world0; terminate := false |}.

(** A series with an official season, a season of specials and a season
    entry that lacks the type key. *)
Definition specials_ref : SeasonRef :=
  {| ref_id := 11; ref_number := 0; ref_type := TypeRecord (Some "dvd") |}.

Definition untyped_ref : SeasonRef :=
  {| ref_id := 12; ref_number := 2; ref_type := TypeMissing |}.

Definition mixed_series : SeriesData :=
  {| series_seasons := [Sample.official_ref; specials_ref; untyped_ref; Sample.official_ref] |}.

Definition mixed_client : TvdbClient :=
  {| search := fun _ => Ok Sample.hits;
     get_series_extended := fun _ => Ok mixed_series;
     get_season_extended := fun _ => Ok Sample.season1 |}.

(** A series with an official season, a season of specials in another
    order, and a season whose type is [null]. *)
Definition null_ref : SeasonRef :=
  {| ref_id := 13; ref_number := 2; ref_type := TypeNull |}.

Definition specials_series : SeriesData :=
  {| series_seasons := [Sample.official_ref; specials_ref; null_ref] |}.

Definition specials_client : TvdbClient :=
  {| search := fun _ => Ok Sample.hits;
     get_series_extended := fun _ => Ok specials_series;
     get_season_extended := fun _ => Ok Sample.season1 |}.

(** An episode the catalogue has no name for: its name is [null]. *)
Definition unnamed : EpisodeData :=
  {| ep_number := 2; ep_name := None; ep_aired := Some "2005-01-08" |}.

Definition third : EpisodeData :=
  {| ep_number := 3; ep_name := Some "Third"; ep_aired := Some "2005-01-15" |}.

Definition season_unnamed : SeasonData :=
  {| season_number := 1; season_name := Some "Season 1";
     season_episodes := [Sample.pilot; unnamed; third] |}.

Definition series_unnamed : SeriesData :=
  {| series_seasons :=
       [ {| ref_id := 20; ref_number := 1; ref_type := TypeRecord (Some "official") |} ] |}.

Definition data_unnamed : ShowData :=
  {| series := series_unnamed; seasons := [season_unnamed] |}.

(** A catalogue of two series: 355, whose season has the unnamed episode,
    and the series of [Sample.client]. *)
Definition two_client : TvdbClient :=
  {| search := fun _ => Ok Sample.hits;
     get_series_extended :=
       fun tvdb_id => if String.eqb tvdb_id "355" then Ok series_unnamed
                      else Ok Sample.series1;
     get_season_extended :=
       fun id => if (id =? 20)%Z then Ok season_unnamed else Ok Sample.season1 |}.

Definition show_unnamed : PlexShow :=
  {| title := "Other Show"; year := Some 2004%Z; guids := ["tvdb://355"];
     episodes := Some [] |}.



(** A show without a year that no catalogue entry is found for. *)
Definition show_undated : PlexShow :=
  {| title := "Home Videos"; year := None; guids := []; episodes := Some [] |}.

(** Search results in which only a later one has the year 0. *)
Definition hits_year_0 : list SearchResult :=
  [ {| sr_tvdb_id := "70001"; sr_name := "The Show"; sr_year := Some 1999%Z |};
    {| sr_tvdb_id := "70004"; sr_name := "The Show (undated)"; sr_year := Some 0%Z |} ].

Definition client_year_0 : TvdbClient :=
  {| search := fun _ => Ok hits_year_0;
     get_series_extended := fun _ => Ok Sample.series1;
     get_season_extended := fun _ => Ok Sample.season1 |}.

End Cases.

(** ** Maps of maps *)

Section Lookup2.

Context {V : Type}.
Implicit Types d : gmap Z (gmap Z V).

Lemma lookup2_store2 d s e v s' e' :
  lookup2 (store2 d s e v) s' e'
  = if decide (s = s' ∧ e = e') then Some v else lookup2 d s' e'.
Proof.
  unfold lookup2, store2.
  destruct (decide (s = s')) as [->|Hs].
  - rewrite lookup_insert_eq. simpl.
    destruct (decide (e = e')) as [->|He].
    + rewrite lookup_insert_eq. by rewrite decide_True.
    + rewrite lookup_insert_ne by done.
      rewrite decide_False by (intros [_ ?]; done).
      by destruct (d !! s').
  - rewrite lookup_insert_ne by done.
    by rewrite decide_False by (intros [? _]; done).
Qed.

Lemma lookup2_store2_eq d s e v : lookup2 (store2 d s e v) s e = Some v.
Proof. rewrite lookup2_store2. by rewrite decide_True. Qed.

Lemma lookup2_insert_empty d s s' e' :
  d !! s = None → lookup2 (<[s := ∅]> d) s' e' = lookup2 d s' e'.
Proof.
  intros Hs. unfold lookup2.
  destruct (decide (s = s')) as [->|Hne].
  - by rewrite lookup_insert_eq, Hs.
  - by rewrite lookup_insert_ne.
Qed.

Lemma lookup2_empty s e : lookup2 (∅ : gmap Z (gmap Z V)) s e = None.
Proof. unfold lookup2. by rewrite lookup_empty. Qed.

End Lookup2.

(** ** The inventory builder keeps its records coherent *)

Section InventoryFacts.

Variable absolute_path : string -> string.

Lemma open_season_lookup season_num inv s e :
  lookup2 (plex_episodes (open_season season_num inv)) s e
  = lookup2 (plex_episodes inv) s e.
Proof.
  unfold open_season.
  destruct (plex_episodes inv !! season_num) eqn:Hs; [done|].
  simpl. by apply lookup2_insert_empty.
Qed.

Lemma open_season_coherent season_num inv :
  coherent inv → coherent (open_season season_num inv).
Proof.
  intros Hinv s e rec. rewrite open_season_lookup. apply Hinv.
Qed.

Lemma add_part_coherent episode file inv :
  coherent inv → coherent (add_part absolute_path episode file inv).
Proof.
  intros Hinv s e rec. unfold add_part.
  destruct (lookup2 (plex_episodes inv) (seasonNumber episode) (index episode))
    as [existing_ep|] eqn:Hold.
  - destruct (truthy (locations episode)) eqn:Hloc; simpl.
    + rewrite lookup2_store2. case_decide as Hkey.
      * intros [= <-]. simpl.
        destruct (combined_locations existing_ep); [|done].
        by intros ?%app_eq_nil%proj2.
      * apply Hinv.
    + apply Hinv.
  - simpl. rewrite lookup2_store2. case_decide as Hkey.
    + intros [= <-]. simpl.
      destruct (locations episode); simpl; done.
    + apply Hinv.
Qed.

Lemma add_parts_coherent episode parts inv :
  coherent inv → coherent (add_parts absolute_path episode parts inv).1.
Proof.
  revert inv. induction parts as [|[file|] rest IH]; intros inv Hinv; simpl; [done| |done].
  apply IH. by apply add_part_coherent.
Qed.

Lemma add_episodes_coherent eps inv :
  coherent inv → coherent (add_episodes absolute_path eps inv).1.
Proof.
  revert inv. induction eps as [|episode rest IH]; intros inv Hinv; simpl; [done|].
  pose proof (add_parts_coherent episode (iterParts episode)
                (open_season (seasonNumber episode) inv)
                (open_season_coherent _ _ Hinv)) as Hparts.
  destruct (add_parts absolute_path episode (iterParts episode)
              (open_season (seasonNumber episode) inv)) as [inv' raised].
  destruct raised; simpl in *; [done|]. by apply IH.
Qed.

Lemma build_inventory_coherent show : coherent (build_inventory absolute_path show).
Proof.
  unfold build_inventory. destruct (episodes show) as [eps|].
  - apply add_episodes_coherent. intros s e rec. simpl. by rewrite lookup2_empty.
  - intros s e rec. simpl. by rewrite lookup2_empty.
Qed.

End InventoryFacts.

(** ** The reconciler *)

Lemma reconcile_absent inv season_num episode_num :
  lookup2 (plex_episodes inv) season_num episode_num = None →
  reconcile inv season_num episode_num = (true, false, "").
Proof. intros H. unfold reconcile. by rewrite H. Qed.

Lemma reconcile_present inv season_num episode_num rec :
  coherent inv →
  lookup2 (plex_episodes inv) season_num episode_num = Some rec →
  reconcile inv season_num episode_num
  = (false, Nat.ltb 1 (occurrences inv season_num episode_num),
     Str.join Str.newline (file_paths rec)).
Proof.
  intros Hinv Hrec. unfold reconcile, occurrences, file_paths. rewrite Hrec.
  specialize (Hinv _ _ _ Hrec).
  f_equal; [f_equal|].
  - by destruct (lookup2 (plex_episodes_count inv) season_num episode_num).
  - destruct (combined_locations rec) as [[|p ps]|]; simpl in *; [done|done|].
    by rewrite Hinv.
Qed.

(** C1. For every catalogue episode of a season, the row of that episode is
    classified by looking up (season number, episode number) in the inventory
    the builder made: when the key is absent the row is missing, not a
    duplicate and has an empty file path; when it is present the row is not
    missing, is a duplicate exactly when the occurrence count of the key
    exceeds 1, and its file path is the newline-join of the record's
    file-path list. *)
Theorem reconciler_classifies_by_lookup
    (absolute_path : string -> string) (show : PlexShow)
    (plex_library_title show_title : string) (show_year : option Z) (num_seasons : nat)
    (season_data : SeasonData) (episode : EpisodeData) :
  let inv := build_inventory absolute_path show in
  let r := report_row plex_library_title show_title show_year num_seasons inv
             season_data episode in
  match lookup2 (plex_episodes inv) (season_number season_data) (ep_number episode) with
  | None =>
      row_is_missing r = true ∧ row_is_duplicate r = false ∧ row_file_path r = ""
  | Some rec =>
      row_is_missing r = false ∧
      (row_is_duplicate r = true ↔
       1 < occurrences inv (season_number season_data) (ep_number episode)) ∧
      row_file_path r = Str.join Str.newline (file_paths rec)
  end.
Proof.
  intros inv r.
  destruct (lookup2 (plex_episodes inv) (season_number season_data) (ep_number episode))
    as [rec|] eqn:Hkey.
  - pose proof (reconcile_present inv _ _ rec
                  (build_inventory_coherent absolute_path show) Hkey) as Hrec.
    subst r. unfold report_row. rewrite Hrec. simpl.
    split; [done|]. split; [|done].
    apply Nat.ltb_lt.
  - pose proof (reconcile_absent inv _ _ Hkey) as Habs.
    subst r. unfold report_row. by rewrite Habs.
Qed.

(** ** Rows in the main sheet *)

Ltac skip_other_cells :=
  rewrite ?lookup_insert_ne by (intros [= ?]; first [done | lia]).

Lemma write_other sheet row col v i c :
  (row, col) ≠ (i, c) → write sheet row col v !! (i, c) = sheet !! (i, c).
Proof.
  intros Hne. unfold write.
  destruct v as [|z|[|a s]]; try done; by rewrite lookup_insert_ne.
Qed.

Lemma write_row_named sheet row_index r : (write_row sheet row_index r).2 = named r.
Proof.
  unfold write_row, named, write_string_opt.
  by destruct (row_season_name r), (row_episode_title r).
Qed.

Lemma write_row_other sheet row_index r i c :
  i ≠ row_index → (write_row sheet row_index r).1 !! (i, c) = sheet !! (i, c).
Proof.
  intros Hne. unfold write_row, write_string_opt.
  destruct (row_season_name r), (row_episode_title r); cbn [fst];
    unfold write_string, write_boolean;
    repeat first [ rewrite lookup_insert_ne by (intros [= ?]; first [done | lia])
                 | rewrite write_other by (intros [= ?]; first [done | lia]) ];
    done.
Qed.

(** A complete row: every column holds the cell of the row, or what it
    held before when the row stores nothing there. *)
Lemma write_row_cell sheet row_index r c :
  named r = true →
  (write_row sheet row_index r).1 !! (row_index, c)
  = match row_cells r !! c with
    | Some (Some cell) => Some cell
    | _ => sheet !! (row_index, c)
    end.
Proof.
  unfold named, write_row, row_cells, write_string_opt.
  destruct (row_season_name r) as [name|]; [|done].
  destruct (row_episode_title r) as [episode_title|]; [|done].
  intros _. cbn [fst].
  destruct (row_year r) as [y|], (row_air_date r) as [|a air];
    cbn [py_year write fmap option_fmap option_map text_cell];
    unfold write_string, write_boolean;
    do 13 (destruct c as [|c];
           [ cbn [lookup list_lookup]; skip_other_cells;
             rewrite ?lookup_insert_eq; done | ]);
    cbn [lookup list_lookup];
    rewrite !lookup_insert_ne by (intros [= ?]; lia); done.
Qed.

Lemma write_rows_app sheet row_index rows1 rows2 :
  write_rows sheet row_index (rows1 ++ rows2)
  = write_rows (write_rows sheet row_index rows1) (row_index + length rows1) rows2.
Proof.
  revert sheet row_index.
  induction rows1 as [|r rest IH]; intros sheet row_index; simpl.
  - by rewrite Nat.add_0_r.
  - rewrite IH. f_equal. lia.
Qed.

Lemma write_rows_other sheet row_index rows i c :
  i < row_index ∨ row_index + length rows ≤ i →
  write_rows sheet row_index rows !! (i, c) = sheet !! (i, c).
Proof.
  revert sheet row_index.
  induction rows as [|r rest IH]; intros sheet row_index Hout; simpl in *; [done|].
  rewrite IH by lia. apply write_row_other. lia.
Qed.

Lemma write_rows_cell sheet row_index rows k r c :
  rows !! k = Some r → named r = true →
  write_rows sheet row_index rows !! (row_index + k, c)
  = match row_cells r !! c with
    | Some (Some cell) => Some cell
    | _ => sheet !! (row_index + k, c)
    end.
Proof.
  revert sheet row_index k.
  induction rows as [|r0 rest IH]; intros sheet row_index k Hk Hnamed; [done|].
  destruct k as [|k]; simpl in *.
  - injection Hk as ->. rewrite write_rows_other by lia.
    rewrite Nat.add_0_r. by apply write_row_cell.
  - replace (row_index + S k) with (row_index + 1 + k) by lia.
    rewrite (IH _ _ _ Hk Hnamed).
    destruct (row_cells r !! c) as [[cell|]|]; [done| |];
      apply write_row_other; lia.
Qed.

(** *** Where the loop stops *)

Lemma written_all rows : forallb named rows = true → written rows = (rows, false).
Proof.
  induction rows as [|r rest IH]; [done|]. simpl.
  destruct (named r); [|done]. simpl. by intros ->%IH.
Qed.

Lemma written_raised rows : (written rows).2 = negb (forallb named rows).
Proof.
  induction rows as [|r rest IH]; [done|]. simpl.
  destruct (named r); [|done]. simpl. rewrite <- IH. by destruct (written rest).
Qed.

Lemma written_app rows1 rows2 :
  written (rows1 ++ rows2)
  = if (written rows1).2 then written rows1
    else ((rows1 ++ (written rows2).1)%list, (written rows2).2).
Proof.
  induction rows1 as [|r rest IH]; simpl.
  - by destruct (written rows2).
  - destruct (named r); [|done]. rewrite IH.
    destruct (written rest) as [reached [|]]; simpl; [done|].
    by destruct (written rows2).
Qed.

Lemma written_prefix rows : (written rows).1 `prefix_of` rows.
Proof.
  induction rows as [|r rest IH]; [done|]. simpl.
  destruct (named r).
  - destruct (written rest) as [reached raised]. simpl in *. by apply prefix_cons.
  - by apply prefix_cons, prefix_nil.
Qed.

Section RowLoops.

Variables (plex_library_title show_title : string) (show_year : option Z).
Variables (num_seasons : nat) (inv : Inventory).

Let row_of (entry : SeasonData * EpisodeData) : ReportRow :=
  report_row plex_library_title show_title show_year num_seasons inv entry.1 entry.2.

Lemma process_episodes_rows season_data eps sheet row_index :
  process_episodes plex_library_title show_title show_year num_seasons inv
    season_data eps sheet row_index
  = looped sheet row_index (map row_of (map (pair season_data) eps)).
Proof.
  unfold looped. revert sheet row_index.
  induction eps as [|episode rest IH]; intros sheet row_index;
    cbn [process_episodes map written].
  - simpl. by rewrite Nat.add_0_r.
  - pose proof (write_row_named sheet row_index (row_of (season_data, episode))) as Hnamed.
    change (report_row plex_library_title show_title show_year num_seasons inv
              season_data episode) with (row_of (season_data, episode)).
    destruct (write_row sheet row_index (row_of (season_data, episode)))
      as [sheet' complete] eqn:Hrow.
    simpl in Hnamed. subst complete.
    assert (Hsheet : (write_row sheet row_index (row_of (season_data, episode))).1 = sheet')
      by (by rewrite Hrow).
    destruct (named (row_of (season_data, episode))).
    + rewrite IH.
      destruct (written (map row_of (map (pair season_data) rest))) as [reached raised].
      cbn [fst snd write_rows length]. rewrite Hsheet.
      destruct raised; [done|]. do 2 f_equal. lia.
    + cbn [fst snd write_rows]. by rewrite Hsheet.
Qed.

Lemma process_seasons_rows tvdb_seasons sheet row_index :
  process_seasons plex_library_title show_title show_year num_seasons inv
    tvdb_seasons sheet row_index
  = looped sheet row_index (map row_of (canonical_episodes tvdb_seasons)).
Proof.
  revert sheet row_index.
  induction tvdb_seasons as [|season_data rest IH]; intros sheet row_index.
  - unfold looped. simpl. by rewrite Nat.add_0_r.
  - cbn [process_seasons canonical_episodes flat_map].
    fold (canonical_episodes rest).
    rewrite map_app.
    destruct (season_episodes season_data) as [|episode eps] eqn:Heps.
    + simpl. by rewrite IH.
    + cbn [truthy]. rewrite process_episodes_rows.
      generalize (map row_of (map (pair season_data) (episode :: eps))).
      intros rows. unfold looped. rewrite written_app.
      destruct (written rows) as [reached raised] eqn:Hwritten.
      cbn [fst snd]. destruct raised; [done|].
      assert (Hall : reached = rows).
      { pose proof (written_raised rows) as Hraised.
        rewrite Hwritten in Hraised. cbn [snd] in Hraised.
        symmetry in Hraised. apply negb_false_iff in Hraised.
        apply written_all in Hraised. rewrite Hwritten in Hraised. by injection Hraised. }
      rewrite IH. unfold looped. cbn [fst snd].
      rewrite write_rows_app, Hall, length_app.
      destruct (written (map row_of (canonical_episodes rest))) as [reached' raised'].
      cbn [snd]. destruct raised'; [done|]. do 2 f_equal. lia.
Qed.

End RowLoops.

Lemma length_canonical_episodes tvdb_seasons :
  length (canonical_episodes tvdb_seasons)
  = sum_list (map (fun season_data => length (season_episodes season_data))
                (List.filter has_episodes tvdb_seasons)).
Proof.
  induction tvdb_seasons as [|season_data rest IH]; [done|].
  cbn [canonical_episodes flat_map List.filter].
  fold (canonical_episodes rest).
  rewrite length_app, length_map, IH.
  unfold has_episodes at 2.
  destruct (season_episodes season_data) eqn:Heps; simpl; [done|].
  rewrite Heps. simpl. lia.
Qed.

(** ** What [process_show] does, by the outcome of the resolver *)

Section ProcessShow.

Variable absolute_path : string -> string.
Variables (show : PlexShow) (plex_library_title : string) (tvdb_client : TvdbClient).
Variables (row_index : nat) (book : Workbook) (w : World).

Let resolution :=
  get_tvdb_data tvdb_client (title show) (year show) (extract_tvdb_id (guids show)) w.

Abbreviation show_rows := (show_rows absolute_path show plex_library_title).

Lemma process_show_resolved tvdb_data w' :
  resolution = (Resolved tvdb_data, w') →
  process_show absolute_path show plex_library_title tvdb_client row_index book w
  = ({| main_sheet := (looped (main_sheet book) row_index (show_rows tvdb_data)).1;
        not_found_sheet := not_found_sheet book;
        error_sheet := error_sheet book;
        closed := closed book |},
     w', (looped (main_sheet book) row_index (show_rows tvdb_data)).2).
Proof.
  subst resolution. intros Hres. unfold process_show. rewrite Hres.
  by rewrite process_seasons_rows.
Qed.

Lemma process_show_named tvdb_data w' :
  resolution = (Resolved tvdb_data, w') →
  forallb named (show_rows tvdb_data) = true →
  process_show absolute_path show plex_library_title tvdb_client row_index book w
  = ({| main_sheet := write_rows (main_sheet book) row_index (show_rows tvdb_data);
        not_found_sheet := not_found_sheet book;
        error_sheet := error_sheet book;
        closed := closed book |},
     w', Some (row_index + length (show_rows tvdb_data))).
Proof.
  intros Hres Hnamed. rewrite (process_show_resolved _ _ Hres).
  unfold looped. by rewrite (written_all _ Hnamed).
Qed.

Lemma process_show_failed error w' :
  resolution = (Failed error, w') →
  process_show absolute_path show plex_library_title tvdb_client row_index book w
  = (report_error book plex_library_title (title show) (year show) error, w',
     Some row_index).
Proof. subst resolution. intros Hres. unfold process_show. by rewrite Hres. Qed.

(** Either way the main sheet receives a block of rows at [row_index]; when
    the call returns, the rows are complete and the returned index is the
    first one after the block. *)
Lemma process_show_block :
  ∃ rows,
    let '(book', _, returned) :=
      process_show absolute_path show plex_library_title tvdb_client row_index book w in
    main_sheet book' = write_rows (main_sheet book) row_index rows ∧
    Forall (fun r => row_library r = plex_library_title) rows ∧
    match returned with
    | Some row' => row' = row_index + length rows ∧ forallb named rows = true
    | None => True
    end.
Proof.
  destruct resolution as [[tvdb_data|error] w'] eqn:Hres.
  - assert (Hlib : Forall (fun r => row_library r = plex_library_title)
                     (show_rows tvdb_data)).
    { unfold show_rows. apply Forall_map, Forall_forall. intros entry _.
      unfold report_row. simpl. by destruct (reconcile _ _ _) as [[? ?] ?]. }
    rewrite (process_show_resolved _ _ Hres). unfold looped. cbn [fst snd].
    pose proof (written_raised (show_rows tvdb_data)) as Hraised.
    destruct (written (show_rows tvdb_data)) as [reached raised] eqn:Hwritten.
    cbn [fst snd] in *. destruct raised.
    + exists reached. split_and!; [done| |done].
      pose proof (written_prefix (show_rows tvdb_data)) as [rest Hrest].
      rewrite Hwritten in Hrest. cbn [fst] in Hrest.
      rewrite Hrest in Hlib. by apply Forall_app in Hlib as [? _].
    + symmetry in Hraised. apply negb_false_iff in Hraised.
      exists (show_rows tvdb_data). 
      rewrite (written_all _ Hraised) in Hwritten. injection Hwritten as <-.
      by split_and!.
  - exists []. rewrite (process_show_failed _ _ Hres). simpl.
    split_and!; [|constructor|lia|done].
    unfold report_error. by destruct (Str.contains _ _).
Qed.

End ProcessShow.

(** X21. When the catalogue data of a show is resolved and every season and
    episode name in it is a text, [process_show] returns, and it has written
    exactly one main-sheet row per catalogue episode, in the order the
    catalogue gives them, from the incoming row index on: the returned index
    is the incoming one plus the sum of the episode counts of the seasons
    with a non-empty episode list (seasons without episodes add nothing).
    Row [k] of the block carries the values of the [k]-th catalogue episode;
    where a row stores nothing (the year of a show without one, an empty air
    date) the cell is as it was before the call, and so is every cell outside
    the block. *)
Theorem one_row_per_named_episode
    (absolute_path : string -> string) (show : PlexShow) (plex_library_title : string)
    (tvdb_client : TvdbClient) (row_index : nat) (book : Workbook) (w : World)
    (tvdb_data : ShowData) (w' : World) :
  get_tvdb_data tvdb_client (title show) (year show) (extract_tvdb_id (guids show)) w
  = (Resolved tvdb_data, w') →
  let canonical := canonical_episodes (seasons tvdb_data) in
  Forall (fun entry : SeasonData * EpisodeData =>
            is_Some (season_name entry.1) ∧ is_Some (ep_name entry.2)) canonical →
  let out := process_show absolute_path show plex_library_title tvdb_client row_index book w in
  let sheet := main_sheet out.1.1 in
  out.2 = Some (row_index + length canonical) ∧
  length canonical
  = sum_list (map (fun season_data => length (season_episodes season_data))
                (List.filter has_episodes (seasons tvdb_data))) ∧
  (∀ k season_data episode,
      canonical !! k = Some (season_data, episode) →
      sheet !! (row_index + k, 4) = Some (CellNumber (season_number season_data)) ∧
      sheet !! (row_index + k, 5) = CellString <$> season_name season_data ∧
      sheet !! (row_index + k, 7) = Some (CellNumber (ep_number episode)) ∧
      sheet !! (row_index + k, 11) = CellString <$> ep_name episode ∧
      ∀ c,
        sheet !! (row_index + k, c)
        = match row_cells
                  (report_row plex_library_title (title show) (year show)
                     (length (List.filter counted_official
                                (series_seasons (series tvdb_data))))
                     (build_inventory absolute_path show) season_data episode) !! c with
          | Some (Some cell) => Some cell
          | _ => main_sheet book !! (row_index + k, c)
          end) ∧
  (∀ i c, i < row_index ∨ row_index + length canonical ≤ i →
          sheet !! (i, c) = main_sheet book !! (i, c)).
Proof.
  intros Hres canonical Hnames out sheet.
  assert (Hnamed : forallb named (show_rows absolute_path show plex_library_title tvdb_data)
                   = true).
  { unfold show_rows. fold canonical. apply forallb_forall. intros r Hin.
    apply in_map_iff in Hin as (entry & <- & Hin).
    rewrite Forall_forall in Hnames.
    destruct (Hnames entry) as [[name Hname] [episode_title Htitle]];
      [by apply list_elem_of_In|].
    unfold named, report_row. destruct (reconcile _ _ _) as [[? ?] ?]. simpl.
    by rewrite Hname, Htitle. }
  subst out sheet. rewrite (process_show_named _ _ _ _ _ _ _ _ _ Hres Hnamed). simpl.
  assert (Hlen : length (show_rows absolute_path show plex_library_title tvdb_data)
                 = length canonical) by (unfold show_rows; by rewrite length_map).
  split_and!.
  - by rewrite Hlen.
  - apply length_canonical_episodes.
  - intros k season_data episode Hk.
    set (r := report_row plex_library_title (title show) (year show)
                (length (List.filter counted_official (series_seasons (series tvdb_data))))
                (build_inventory absolute_path show) season_data episode).
    assert (Hrow : show_rows absolute_path show plex_library_title tvdb_data !! k = Some r).
    { unfold show_rows. rewrite list_lookup_fmap. fold canonical. by rewrite Hk. }
    assert (Hr : named r = true).
    { rewrite forallb_forall in Hnamed. apply Hnamed.
      apply list_elem_of_In. by eapply list_elem_of_lookup_2. }
    pose proof (fun c => write_rows_cell (main_sheet book) row_index _ k r c Hrow Hr)
      as Hcell.
    rewrite Forall_forall in Hnames.
    destruct (Hnames (season_data, episode)) as [[name Hname] [episode_title Htitle]];
      [by eapply list_elem_of_lookup_2|].
    simpl in Hname, Htitle.
    split_and!; [| | | |done].
    + rewrite Hcell. subst r. unfold report_row.
      by destruct (reconcile _ _ _) as [[? ?] ?].
    + rewrite Hcell. subst r. unfold report_row.
      destruct (reconcile _ _ _) as [[? ?] ?]. simpl. by rewrite Hname.
    + rewrite Hcell. subst r. unfold report_row.
      by destruct (reconcile _ _ _) as [[? ?] ?].
    + rewrite Hcell. subst r. unfold report_row.
      destruct (reconcile _ _ _) as [[? ?] ?]. simpl. by rewrite Htitle.
  - intros i c Hout. apply write_rows_other. rewrite Hlen. lia.
Qed.

(** ** The driver *)

Section Driver.

Variable absolute_path : string -> string.
Variable tvdb : TvdbClient.

Abbreviation process_show := (process_show absolute_path).
Abbreviation step := (step absolute_path tvdb).
Abbreviation react := (react absolute_path tvdb).
Abbreviation run := (run absolute_path tvdb).
Abbreviation settled := (settled absolute_path tvdb).

Lemma run_app events1 events2 r : run (events1 ++ events2) r = run events2 (run events1 r).
Proof. unfold run. apply fold_left_app. Qed.

Lemma run_cons e events r : run (e :: events) r = run events (react r e).
Proof. reflexivity. Qed.

(** *** Rows already written stay *)




(** *** Once the flag is set *)

Lemma react_terminate r e : terminate r = true → terminate (react r e) = true.
Proof.
  intros Hflag. destruct e; [|done]. cbn [react]. unfold step.
  destruct (phase r) as [libraries|library_title shows libraries
                        |library_title show shows libraries|libraries|].
  - destruct libraries as [|library libraries]; [done|].
    by destruct (lib_search library).
  - destruct shows as [|show shows]; [done|]. by rewrite Hflag.
  - by destruct (process_show _ _ _ _ _ _) as [[? ?] ?].
  - by rewrite Hflag.
  - done.
Qed.

Lemma react_settled r e :
  terminate r = true → outcome (settled (react r e)) = outcome (settled r).
Proof.
  intros Hflag. destruct e; cbn [react].
  - unfold settled, step.
    destruct (phase r) as [libraries|library_title shows libraries
                          |library_title show shows libraries|libraries|] eqn:Hphase;
      simpl.
    + destruct libraries as [|library libraries]; [done|].
      by destruct (lib_search library).
    + destruct shows as [|show shows]; [done|]. by rewrite Hflag.
    + by destruct (process_show _ _ _ _ _ _) as [[? ?] ?].
    + by rewrite Hflag.
    + by rewrite Hphase.
  - unfold settled, signal_handler, step. simpl.
    destruct (phase r); try done.
    by destruct (process_show _ _ _ _ _ _) as [[? ?] ?].
Qed.

Lemma react_remaining r e :
  terminate r = true →
  remaining (react r e) ≤ remaining r - steps [e].
Proof.
  intros Hflag. destruct e; cbn [react steps]; [|unfold remaining; simpl; lia].
  unfold remaining, step.
  destruct (phase r) as [libraries|library_title shows libraries
                        |library_title show shows libraries|libraries|] eqn:Hphase.
  - destruct libraries as [|library libraries]; simpl; [lia|].
    destruct (lib_search library); simpl; lia.
  - destruct shows as [|show shows]; simpl; [lia|]. rewrite Hflag. simpl. lia.
  - destruct (process_show _ _ _ _ _ _) as [[? ?] ?]. simpl. lia.
  - rewrite Hflag. simpl. lia.
  - rewrite Hphase. lia.
Qed.

Lemma run_after_interrupt events r :
  terminate r = true →
  terminate (run events r) = true ∧
  outcome (settled (run events r)) = outcome (settled r) ∧
  remaining (run events r) ≤ remaining r - steps events.
Proof.
  revert r. induction events as [|e rest IH]; intros r Hflag.
  - simpl. split_and!; [done..|lia].
  - rewrite run_cons.
    destruct (IH (react r e) (react_terminate r e Hflag)) as (Hflag' & Hout & Hrem).
    split_and!; [done| |].
    + rewrite Hout. by apply react_settled.
    + pose proof (react_remaining r e Hflag) as Hone.
      destruct e; simpl in *; lia.
Qed.

Lemma react_starts_no_show r e library_title show shows libraries :
  terminate r = true →
  phase (react r e) = InShow library_title show shows libraries →
  phase r = InShow library_title show shows libraries.
Proof.
  intros Hflag. destruct e; [|done]. cbn [react]. unfold step.
  destruct (phase r) as [libs|title0 shows0 libs|title0 show0 shows0 libs|libs|]
    eqn:Hphase.
  - destruct libs as [|library libs]; [done|]. by destruct (lib_search library).
  - destruct shows0 as [|show0 shows0]; [done|]. by rewrite Hflag.
  - by destruct (process_show _ _ _ _ _ _) as [[? ?] ?].
  - by rewrite Hflag.
  - by rewrite Hphase.
Qed.

Lemma run_starts_no_show events r library_title show shows libraries :
  terminate r = true →
  phase (run events r) = InShow library_title show shows libraries →
  phase r = InShow library_title show shows libraries.
Proof.
  revert r. induction events as [|e rest IH]; intros r Hflag; [done|].
  rewrite run_cons. intros Hphase.
  apply (react_starts_no_show r e); [done|].
  apply IH; [by apply react_terminate | done].
Qed.

(** *** A finished run is a saved one *)

Lemma react_sealed r e : sealed r → sealed (react r e).
Proof.
  intros Hsealed. destruct e; [|done]. cbn [react]. unfold sealed, step.
  destruct (phase r) as [libraries|library_title shows libraries
                        |library_title show shows libraries|libraries|] eqn:Hphase.
  - destruct libraries as [|library libraries]; [done|].
    by destruct (lib_search library).
  - destruct shows as [|show shows]; [done|]. by destruct (terminate r).
  - by destruct (process_show _ _ _ _ _ _) as [[? ?] ?].
  - by destruct (terminate r).
  - intros _. apply Hsealed, Hphase.
Qed.

Lemma run_sealed events r : sealed r → sealed (run events r).
Proof.
  revert r. induction events as [|e rest IH]; intros r Hsealed; [done|].
  rewrite run_cons. by apply IH, react_sealed.
Qed.

Lemma start_sealed sections w : sealed (start sections w).
Proof.
  unfold sealed, start. destruct sections as [sections|]; [|done].
  by destruct (List.filter _ sections).
Qed.

End Driver.

(** C9. The interrupt flag is read only between shows.  Take any point of a
    run of [main] at which the flag is set, whenever the signal arrived (also
    in the middle of a show).  From there on, however further signals
    interleave, three program steps bring the run to its end with the
    workbook saved, and what it has produced (the three sheets, the actions
    on the outside world, the next free row) is what there was at that point
    with the show in progress, if there is one, processed to the end by
    [process_show]: that show gets all the rows its call writes (when the
    call raises, the next free row stays where it was, as in a run without
    a signal) and no other show is started, in this library or a later one
    (at no later point is a show in progress other than the one that was). *)
Theorem interrupt_finishes_current_show_only
    (absolute_path : string -> string) (tvdb : TvdbClient)
    (sections : option (list Library)) (w : World) (before after : list Event) :
  let r := run absolute_path tvdb before (start sections w) in
  let r' := run absolute_path tvdb after r in
  terminate r = true →
  3 ≤ steps after →
  phase r' = Finished ∧
  closed (wb r') = true ∧
  outcome r' =
    match phase r with
    | InShow library_title show _ _ =>
        let '(book, w', returned) :=
          process_show absolute_path show library_title tvdb (row_index r) (wb r) (world r) in
        (main_sheet book, not_found_sheet book, error_sheet book, w',
         default (row_index r) returned)
    | _ => outcome r
    end ∧
  (∀ events library_title show shows libraries,
      phase (run absolute_path tvdb events r) = InShow library_title show shows libraries →
      phase r = InShow library_title show shows libraries).
Proof.
  intros r r' Hflag Hsteps.
  cut (phase r' = Finished ∧ closed (wb r') = true ∧
       outcome r' =
         match phase r with
         | InShow library_title show _ _ =>
             let '(book, w', returned) :=
               process_show absolute_path show library_title tvdb (row_index r) (wb r)
                 (world r) in
             (main_sheet book, not_found_sheet book, error_sheet book, w',
              default (row_index r) returned)
         | _ => outcome r
         end).
  { intros (Hphase & Hclosed & Hout). split_and!; [done..|].
    intros events library_title show shows libraries.
    by apply run_starts_no_show. }
  destruct (run_after_interrupt absolute_path tvdb after r Hflag) as (_ & Hout & Hrem).
  fold r' in Hout, Hrem.
  assert (Hdone : phase r' = Finished).
  { assert (remaining r' = 0) as Hzero by (unfold remaining in Hrem at 2; destruct (phase r); lia).
    unfold remaining in Hzero. by destruct (phase r'). }
  split_and!; [done| |].
  - apply (run_sealed absolute_path tvdb after r); [|done].
    apply run_sealed, start_sealed.
  - unfold settled in Hout. rewrite Hdone in Hout. rewrite Hout.
    destruct (phase r) eqn:Hphase; try done.
    unfold step. rewrite Hphase.
    by destruct (process_show _ _ _ _ _ _ _) as [[? ?] ?].
Qed.


Lemma one_row_per_named_episode_witness :
  get_tvdb_data Sample.client "The Show" (Some 2005%Z) (Some "121361") Sample.world0
  = (Resolved Sample.data1,
     (get_tvdb_data Sample.client "The Show" (Some 2005%Z) (Some "121361") Sample.world0).2) ∧
  Forall (fun entry : SeasonData * EpisodeData =>
            is_Some (season_name entry.1) ∧ is_Some (ep_name entry.2))
    (canonical_episodes (seasons Sample.data1)) ∧
  (process_show id Sample.show1 "TV" Sample.client 1 setup_worksheets Sample.world0).2
  = Some (1 + length (canonical_episodes (seasons Sample.data1))).
Proof.
  assert (Hres : get_tvdb_data Sample.client (title Sample.show1) (year Sample.show1)
                   (extract_tvdb_id (guids Sample.show1)) Sample.world0
                 = (Resolved Sample.data1,
                    (get_tvdb_data Sample.client "The Show" (Some 2005%Z) (Some "121361")
                       Sample.world0).2))
    by (vm_compute; reflexivity).
  assert (Hnames : Forall (fun entry : SeasonData * EpisodeData =>
                             is_Some (season_name entry.1) ∧ is_Some (ep_name entry.2))
                     (canonical_episodes (seasons Sample.data1)))
    by (repeat constructor; by eexists).
  split; [exact Hres|]. split; [exact Hnames|].
  exact (proj1 (one_row_per_named_episode id Sample.show1 "TV" Sample.client 1
                  setup_worksheets Sample.world0 Sample.data1 _ Hres Hnames)).
Defined.


(** C3, at a season the catalogue marks official with a type object: the
    fetch loop does not pass it over and its episodes get their rows, but the
    season count written in column 3 of those rows is 0, because the count
    compares the type object itself with the text "official". *)
Theorem official_season_is_fetched_but_not_counted :
  skips Sample.official_ref = Ok false ∧
  counted_official Sample.official_ref = false ∧
  let '(book, _, row) :=
    process_show id Sample.show1 "TV" Sample.client 1 setup_worksheets Sample.world0 in
  row = Some 3 ∧
  main_sheet book !! (1, 3) = Some (CellNumber 0) ∧
  main_sheet book !! (2, 3) = Some (CellNumber 0).
Proof. vm_compute. done. Qed.

(** C4, with a cache directory that refuses writes: the series and its
    season are fetched from the catalogue, yet the resolver returns an error
    in place of the data, and the show ends up as a row of the other-errors
    sheet with no row in the main sheet. *)
Theorem cache_write_failure_fails_the_show :
  get_tvdb_data Sample.client "The Show" (Some 2005%Z) (Some "121361") Sample.world_readonly
  = (Failed "TVDB API error: [Errno 13] Permission denied",
     {| files := ∅; now := now Sample.world_readonly;
        write_error := write_error Sample.world_readonly;
        actions := [FetchedSeries "121361"; FetchedSeason 10] |}) ∧
  let '(book, _, row) :=
    process_show id Sample.show1 "TV" Sample.client 1 setup_worksheets Sample.world_readonly in
  row = Some 1 ∧
  main_sheet book = main_sheet setup_worksheets ∧
  error_sheet book !! (1, 3)
  = Some (CellString "TVDB API error: [Errno 13] Permission denied").
Proof. vm_compute. done. Qed.

(** C2, at a show whose catalogue data is resolved with every season
    fetched, when the catalogue has no name for the second of the three
    episodes of the only season: the write of the episode title raises, so
    the call does not return; row 1 is complete, row 2 stops before the
    title, and the third episode gets no row. *)
Theorem null_episode_name_ends_the_show_early :
  (get_tvdb_data Cases.two_client "Other Show" (Some 2004%Z) (Some "355") Sample.world0).1
  = Resolved Cases.data_unnamed ∧
  map ref_type (series_seasons Cases.series_unnamed) = [TypeRecord (Some "official")] ∧
  map (fun season => get_season_extended Cases.two_client (ref_id season))
    (series_seasons Cases.series_unnamed)
  = map Ok (seasons Cases.data_unnamed) ∧
  length (canonical_episodes (seasons Cases.data_unnamed)) = 3 ∧
  let '(book, _, returned) :=
    process_show id Cases.show_unnamed "TV" Cases.two_client 1 setup_worksheets
      Sample.world0 in
  returned = None ∧
  main_sheet book !! (1, 11) = Some (CellString "Pilot") ∧
  main_sheet book !! (1, 12) = Some (CellString "") ∧
  main_sheet book !! (2, 7) = Some (CellNumber 2) ∧
  main_sheet book !! (2, 10) = Some (CellBoolean false) ∧
  main_sheet book !! (2, 11) = None ∧
  main_sheet book !! (2, 12) = None ∧
  main_sheet book !! (3, 0) = None ∧
  main_sheet book !! (3, 11) = None.
Proof. split_and!; vm_compute; done. Qed.


(** ** A failure while the inventory is built *)

Section InventoryFailure.

Variable absolute_path : string -> string.

Abbreviation add_parts := (add_parts absolute_path).
Abbreviation add_episodes := (add_episodes absolute_path).
Abbreviation build_inventory := (build_inventory absolute_path).

Lemma add_parts_files episode files inv :
  add_parts episode (Some <$> files) inv
  = (fold_left (fun inv file => add_part absolute_path episode file inv) files inv, false).
Proof.
  revert inv. induction files as [|file rest IH]; intros inv; [done|].
  simpl. apply IH.
Qed.

Lemma add_parts_failure episode files more inv :
  add_parts episode ((Some <$> files) ++ None :: more)%list inv
  = (fold_left (fun inv file => add_part absolute_path episode file inv) files inv, true).
Proof.
  revert inv. induction files as [|file rest IH]; intros inv; [done|].
  simpl. apply IH.
Qed.

Lemma add_parts_sound episode parts inv :
  Forall is_Some parts → (add_parts episode parts inv).2 = false.
Proof.
  revert inv. induction parts as [|part rest IH]; intros inv Hsound; [done|].
  inversion Hsound as [|? ? [file ->] Hrest]; subst. simpl. by apply IH.
Qed.

Lemma add_episodes_app before rest inv :
  Forall (fun episode => Forall is_Some (iterParts episode)) before →
  add_episodes (before ++ rest)%list inv = add_episodes rest (add_episodes before inv).1.
Proof.
  revert inv. induction before as [|episode before IH]; intros inv Hsound; [done|].
  inversion Hsound as [|? ? Hepisode Hbefore]; subst. simpl.
  pose proof (add_parts_sound episode (iterParts episode)
                (open_season (seasonNumber episode) inv) Hepisode) as Hflag.
  destruct (add_parts episode (iterParts episode) (open_season (seasonNumber episode) inv))
    as [inv' raised].
  simpl in Hflag. subst raised. by apply IH.
Qed.

(** The builder stores records under the keys of the episodes it handles
    only. *)
Lemma add_part_key episode file inv s e :
  is_Some (lookup2 (plex_episodes (add_part absolute_path episode file inv)) s e) →
  (s = seasonNumber episode ∧ e = index episode) ∨ is_Some (lookup2 (plex_episodes inv) s e).
Proof.
  unfold add_part.
  destruct (lookup2 (plex_episodes inv) (seasonNumber episode) (index episode))
    as [existing_ep|] eqn:Hold.
  - destruct (truthy (locations episode)); simpl; [|by right].
    rewrite lookup2_store2. case_decide as Hkey; [left; by destruct Hkey as [<- <-] | by right].
  - simpl. rewrite lookup2_store2. case_decide as Hkey; [left; by destruct Hkey as [<- <-] | by right].
Qed.

Lemma add_parts_key episode parts inv s e :
  is_Some (lookup2 (plex_episodes (add_parts episode parts inv).1) s e) →
  (s = seasonNumber episode ∧ e = index episode) ∨ is_Some (lookup2 (plex_episodes inv) s e).
Proof.
  revert inv. induction parts as [|[file|] rest IH]; intros inv; simpl; [by right| |by right].
  intros [Hkey|Hin]%IH; [by left|]. by apply add_part_key in Hin.
Qed.

Lemma add_episodes_key eps inv s e :
  is_Some (lookup2 (plex_episodes (add_episodes eps inv).1) s e) →
  (∃ episode, episode ∈ eps ∧ s = seasonNumber episode ∧ e = index episode)
  ∨ is_Some (lookup2 (plex_episodes inv) s e).
Proof.
  revert inv. induction eps as [|episode rest IH]; intros inv; simpl; [by right|].
  pose proof (add_parts_key episode (iterParts episode)
                (open_season (seasonNumber episode) inv) s e) as Hparts.
  destruct (add_parts episode (iterParts episode) (open_season (seasonNumber episode) inv))
    as [inv' raised].
  simpl in Hparts.
  assert (is_Some (lookup2 (plex_episodes inv') s e) →
          (∃ episode0, episode0 ∈ episode :: rest ∧
                       s = seasonNumber episode0 ∧ e = index episode0)
          ∨ is_Some (lookup2 (plex_episodes inv) s e)) as Hhere.
  { intros [Hkey|Hin]%Hparts.
    - left. exists episode. split; [apply list_elem_of_here | done].
    - right. by rewrite open_season_lookup in Hin. }
  destruct raised; simpl; [done|].
  intros [(episode0 & Hin & Hkey)|Hin]%IH; [|by apply Hhere].
  left. exists episode0. split; [by apply list_elem_of_further | done].
Qed.

End InventoryFailure.

(** C5 as stated fails: with a first episode whose file cannot be obtained
    and a sound second one, the second is not in the inventory either. *)
Lemma sound_episode_after_failure_is_omitted :
  ¬ (∀ (absolute_path : string -> string) (show : PlexShow) (eps : list PlexEpisode)
       (episode : PlexEpisode),
        episodes show = Some eps →
        episode ∈ eps →
        Forall is_Some (iterParts episode) →
        iterParts episode ≠ [] →
        is_Some (lookup2 (plex_episodes (build_inventory absolute_path show))
                   (seasonNumber episode) (index episode))).
Proof.
  intros Hclaim.
  specialize (Hclaim id Sample.show_broken [Sample.broken1; Sample.file2] Sample.file2).
  destruct Hclaim as [rec Hrec].
  - reflexivity.
  - apply list_elem_of_further, list_elem_of_here.
  - repeat constructor. by eexists.
  - discriminate.
  - vm_compute in Hrec. discriminate.
Qed.

(** C5, amended.  A failure while the files of one episode are obtained ends
    the building loop and is not passed on: [build_inventory] still returns
    an inventory.  That inventory is the one of the show cut after the failing
    episode; it holds everything stored before the failure (the episodes
    before the failing one and the files of the failing one that precede the
    failure); and any key that belongs to none of the episodes up to the
    failing one, so every episode found only after it, is reported missing. *)
Theorem failure_ends_inventory_building
    (absolute_path : string -> string) (show : PlexShow)
    (before after : list PlexEpisode) (failing : PlexEpisode)
    (files : list string) (more : list (option string)) :
  episodes show = Some (before ++ failing :: after)%list →
  Forall (fun episode => Forall is_Some (iterParts episode)) before →
  iterParts failing = ((Some <$> files) ++ None :: more)%list →
  let inv := build_inventory absolute_path show in
  inv = build_inventory absolute_path (with_episodes show (before ++ [failing])%list) ∧
  inv = fold_left (fun inv file => add_part absolute_path failing file inv) files
          (open_season (seasonNumber failing)
             (build_inventory absolute_path (with_episodes show before))) ∧
  (∀ season_num episode_num,
      (∀ episode, episode ∈ (before ++ [failing])%list →
                  ¬ (season_num = seasonNumber episode ∧ episode_num = index episode)) →
      reconcile inv season_num episode_num = (true, false, "")).
Proof.
  intros Heps Hbefore Hparts inv.
  assert (Hinv : inv = fold_left (fun inv file => add_part absolute_path failing file inv) files
                         (open_season (seasonNumber failing)
                            (build_inventory absolute_path (with_episodes show before)))).
  { subst inv. unfold build_inventory. rewrite Heps. simpl.
    rewrite add_episodes_app by done. simpl.
    by rewrite Hparts, add_parts_failure. }
  assert (Hcut : inv = build_inventory absolute_path
                         (with_episodes show (before ++ [failing])%list)).
  { rewrite Hinv. unfold build_inventory. simpl.
    rewrite add_episodes_app by done. simpl.
    by rewrite Hparts, add_parts_failure. }
  split_and!; [done..|].
  intros season_num episode_num Hfresh. apply reconcile_absent.
  destruct (lookup2 (plex_episodes inv) season_num episode_num) as [rec|] eqn:Hrec; [|done].
  exfalso.
  rewrite Hcut in Hrec. unfold build_inventory in Hrec. simpl in Hrec.
  destruct (add_episodes_key absolute_path (before ++ [failing])%list empty_inventory
              season_num episode_num) as [(episode & Hin & Hkey)|Hin].
  - by rewrite Hrec.
  - by apply (Hfresh episode).
  - simpl in Hin. rewrite lookup2_empty in Hin. by destruct Hin.
Qed.

Lemma failure_ends_inventory_building_witness :
  episodes Sample.show_broken = Some ([] ++ Sample.broken1 :: [Sample.file2])%list ∧
  reconcile (build_inventory id Sample.show_broken) 1 2 = (true, false, "").
Proof.
  split; [reflexivity|].
  refine (proj2 (proj2 (failure_ends_inventory_building id Sample.show_broken
                          [] [Sample.file2] Sample.broken1 [] [] _ _ _)) 1%Z 2%Z _).
  - reflexivity.
  - constructor.
  - reflexivity.
  - intros episode Hin [_ Hindex].
    apply list_elem_of_singleton in Hin. subst episode. discriminate Hindex.
Defined.

(** ** The search *)

Lemma year_match_first show_year search_results r :
  year_match show_year search_results = Some r →
  ∃ k, search_results !! k = Some r ∧ year_matches show_year r = true ∧
       ∀ j r', j < k → search_results !! j = Some r' → year_matches show_year r' = false.
Proof.
  induction search_results as [|r0 rest IH]; [done|]. simpl.
  destruct (year_matches show_year r0) eqn:Hr0.
  - intros [= <-]. exists 0. split_and!; [done..|]. intros j r' Hj. lia.
  - intros (k & Hk & Hyes & Hno)%IH. exists (S k). split_and!; [done..|].
    intros [|j] r' Hj; simpl.
    + by intros [= <-].
    + apply Hno. lia.
Qed.

Lemma year_match_none show_year search_results :
  year_match show_year search_results = None →
  ∀ r, r ∈ search_results → year_matches show_year r = false.
Proof.
  induction search_results as [|r0 rest IH]; simpl.
  - intros _ r Hin. by apply elem_of_nil in Hin.
  - destruct (year_matches show_year r0) eqn:Hr0; [done|].
    intros Hrest r [->|Hin]%elem_of_cons; [done|]. by apply IH.
Qed.

Lemma year_matches_given y r :
  y ≠ 0%Z → (year_matches (Some y) r = true ↔ sr_year r = Some y).
Proof.
  intros Hy. unfold year_matches.
  destruct (Z.eqb_spec y 0) as [|_]; [done|]. simpl.
  destruct (sr_year r) as [y'|]; [|done].
  destruct (Z.eqb_spec y' y) as [->|Hne]; split; try done.
  intros [= ->]. done.
Qed.

Lemma year_match_no_year show_year search_results :
  show_year = None ∨ show_year = Some 0%Z → year_match show_year search_results = None.
Proof.
  intros Hyear. induction search_results as [|r rest IH]; [done|]. simpl.
  by destruct Hyear as [-> | ->].
Qed.

(** C7 as stated fails for the year 0: the script's test [show_year and ...]
    takes it for no year, so a result whose year is 0 is not selected and
    the first result is, whatever its year. *)
Lemma year_0_selects_no_result :
  ¬ (∀ (tvdb_client : TvdbClient) (show_title : string) (y : Z) (tvdb_id : option string)
       (w : World) (search_results : list SearchResult),
        no_id tvdb_id = true →
        search tvdb_client show_title = Ok search_results →
        search_results ≠ [] →
        ∃ r,
          resolve_id tvdb_client show_title (Some y) tvdb_id w
          = (inl (sr_tvdb_id r), record (Searched show_title) w) ∧
          ((∃ k, search_results !! k = Some r ∧ sr_year r = Some y ∧
                 ∀ j r', j < k → search_results !! j = Some r' → sr_year r' ≠ Some y)
           ∨ ((∀ r', r' ∈ search_results → sr_year r' ≠ Some y) ∧
              search_results !! 0 = Some r))).
Proof.
  intros Hclaim.
  destruct (Hclaim Cases.client_year_0 "The Show" 0%Z None Sample.world0 Cases.hits_year_0
              eq_refl eq_refl) as (r & Hres & Hwhich); [discriminate|].
  assert (Hid : sr_tvdb_id r = "70001") by (by vm_compute in Hres; injection Hres).
  destruct Hwhich as [(k & Hk & Hyear & _) | [Hnone _]].
  - destruct k as [|[|k]]; simpl in Hk; [| |done].
    + injection Hk as <-. discriminate Hyear.
    + injection Hk as <-. discriminate Hid.
  - apply (Hnone {| sr_tvdb_id := "70004"; sr_name := "The Show (undated)";
                    sr_year := Some 0%Z |}); [|done].
    apply list_elem_of_further, list_elem_of_here.
Qed.

(** C7, amended.  When no catalogue identifier is given and the title search
    returns a non-empty list, the resolver takes the identifier of one of the
    results: for a given year other than 0, the first result, in the order
    the catalogue returned them, whose year is the given year, and the first
    result of the list when no result has that year; with no year, or the
    year 0, the first result of the list whatever the years. *)
Theorem search_selects_first_year_match_or_first
    (tvdb_client : TvdbClient) (show_title : string) (show_year : option Z)
    (tvdb_id : option string) (w : World) (search_results : list SearchResult) :
  no_id tvdb_id = true →
  search tvdb_client show_title = Ok search_results →
  search_results ≠ [] →
  ∃ r,
    resolve_id tvdb_client show_title show_year tvdb_id w
    = (inl (sr_tvdb_id r), record (Searched show_title) w) ∧
    match show_year with
    | Some y =>
        if decide (y = 0%Z) then search_results !! 0 = Some r
        else
          (∃ k, search_results !! k = Some r ∧ sr_year r = Some y ∧
                ∀ j r', j < k → search_results !! j = Some r' → sr_year r' ≠ Some y)
          ∨ ((∀ r', r' ∈ search_results → sr_year r' ≠ Some y) ∧
             search_results !! 0 = Some r)
    | None => search_results !! 0 = Some r
    end.
Proof.
  intros Hid Hsearch Hne. unfold resolve_id. rewrite Hid, Hsearch.
  destruct search_results as [|r0 rest]; [done|].
  unfold best_match.
  destruct show_year as [y|]; [destruct (decide (y = 0%Z)) as [->|Hy]|].
  - exists r0. by rewrite year_match_no_year by by right.
  - destruct (year_match (Some y) (r0 :: rest)) as [r|] eqn:Hmatch.
    + exists r. split; [done|]. left.
      destruct (year_match_first _ _ _ Hmatch) as (k & Hk & Hyes & Hno).
      exists k. split_and!; [done|by apply year_matches_given|].
      intros j r' Hj Hr' Hyear. apply (year_matches_given y r' Hy) in Hyear.
      by rewrite (Hno j r' Hj Hr') in Hyear.
    + exists r0. split; [done|]. right. split; [|done].
      intros r' Hin Hyear. apply (year_matches_given y r' Hy) in Hyear.
      by rewrite (year_match_none _ _ Hmatch r' Hin) in Hyear.
  - exists r0. by rewrite year_match_no_year by by left.
Qed.

Lemma search_selects_first_year_match_or_first_witness :
  ∃ r,
    resolve_id Sample.client "The Show" (Some 2005%Z) None Sample.world0
    = (inl (sr_tvdb_id r), record (Searched "The Show") Sample.world0) ∧
    ((∃ k, Sample.hits !! k = Some r ∧ sr_year r = Some 2005%Z ∧
           ∀ j r', j < k → Sample.hits !! j = Some r' → sr_year r' ≠ Some 2005%Z)
     ∨ ((∀ r', r' ∈ Sample.hits → sr_year r' ≠ Some 2005%Z) ∧ Sample.hits !! 0 = Some r)).
Proof.
  apply (search_selects_first_year_match_or_first Sample.client "The Show" (Some 2005%Z)
           None Sample.world0 Sample.hits);
    [reflexivity | reflexivity | discriminate].
Defined.

(** ** The error rows *)

Lemma write_error_row_cells sheet plex_library_title show_title show_year error :
  let sheet' := write_error_row sheet plex_library_title show_title show_year error in
  sheet' !! (1, 0) = Some (CellString plex_library_title) ∧
  sheet' !! (1, 1) = Some (CellString show_title) ∧
  sheet' !! (1, 2) = match show_year with
                     | Some y => Some (CellNumber y)
                     | None => sheet !! (1, 2)
                     end ∧
  sheet' !! (1, 3) = Some (CellString error) ∧
  (∀ i c, i ≠ 1 ∨ 3 < c → sheet' !! (i, c) = sheet !! (i, c)).
Proof.
  cbn zeta. unfold write_error_row, write_string.
  destruct show_year as [y|]; cbn [py_year write]; split_and!;
    try (skip_other_cells; by rewrite ?lookup_insert_eq);
    intros i c Hout; rewrite !lookup_insert_ne by (intros [= ? ?]; lia); done.
Qed.

Lemma zero_results_error tvdb_client show_title show_year tvdb_id w error w' :
  no_id tvdb_id = true →
  search tvdb_client show_title = Ok [] →
  get_tvdb_data tvdb_client show_title show_year tvdb_id w = (Failed error, w') →
  error = "Not found on TVDB".
Proof.
  intros Hid Hsearch. unfold get_tvdb_data, resolve_id. rewrite Hid, Hsearch.
  by intros [= <- _].
Qed.

(** C8 as stated fails, twice.  A search that raises is not a search with
    zero results, yet when the text of its exception contains "Not found" the
    error row goes to the not-found sheet and the other-errors sheet stays
    as it was.  And the error row of a show without a year does not
    overwrite the one before it: the year cell keeps the year of the earlier
    show, next to the title of the later one. *)
Lemma error_row_is_routed_by_text_and_keeps_an_old_year :
  ¬ (∀ (absolute_path : string -> string) (show : PlexShow) (plex_library_title : string)
       (tvdb_client : TvdbClient) (row_index : nat) (book : Workbook) (w : World)
       (error : string) (w' : World),
        get_tvdb_data tvdb_client (title show) (year show) (extract_tvdb_id (guids show)) w
        = (Failed error, w') →
        search tvdb_client (title show) ≠ Ok [] →
        error_sheet
          (process_show absolute_path show plex_library_title tvdb_client row_index book w).1.1
        !! (1, 3) = Some (CellString error)) ∧
  let first :=
    (process_show id Sample.show_unknown "TV" Sample.empty_client 1 setup_worksheets
       Sample.world0).1 in
  let second :=
    (process_show id Cases.show_undated "TV" Sample.empty_client 1 first.1 first.2).1.1 in
  not_found_sheet first.1 !! (1, 1) = Some (CellString "The Show") ∧
  not_found_sheet first.1 !! (1, 2) = Some (CellNumber 2005) ∧
  not_found_sheet second !! (1, 1) = Some (CellString "Home Videos") ∧
  not_found_sheet second !! (1, 2) = Some (CellNumber 2005).
Proof.
  split; [|split_and!; vm_compute; reflexivity].
  intros Hclaim.
  specialize (Hclaim id Sample.show_unknown "TV" Sample.failing_client 1 setup_worksheets
                Sample.world0 "TVDB search error: Not found"
                (record (Searched "The Show") Sample.world0)).
  assert (Hcell : error_sheet
                    (process_show id Sample.show_unknown "TV" Sample.failing_client 1
                       setup_worksheets Sample.world0).1.1 !! (1, 3) = None)
    by (vm_compute; reflexivity).
  rewrite Hcell in Hclaim.
  assert (Hwrong : @None Cell = Some (CellString "TVDB search error: Not found"));
    [apply Hclaim; [reflexivity | discriminate] | discriminate].
Qed.

(** C8, amended.  When the resolution of a show fails, [process_show] returns
    the incoming row index and leaves the main sheet as it was.  The error
    row goes to the not-found sheet when the text of the error contains
    "Not found", which is the case for a search with zero results, and to the
    other-errors sheet otherwise.  It is always written at row 1 of that
    sheet: columns 0, 1 and 3 receive the library title, the show title and
    the error text, whatever they held before; column 2 receives the year of
    a show that has one and keeps what it held for a show without a year; no
    other cell of the sheet changes, and the sheet not chosen stays as it
    was. *)
Theorem failed_show_writes_error_row_at_row_1
    (absolute_path : string -> string) (show : PlexShow) (plex_library_title : string)
    (tvdb_client : TvdbClient) (row_index : nat) (book : Workbook) (w : World)
    (error : string) (w' : World) :
  get_tvdb_data tvdb_client (title show) (year show) (extract_tvdb_id (guids show)) w
  = (Failed error, w') →
  let out := process_show absolute_path show plex_library_title tvdb_client row_index book w in
  let book' := out.1.1 in
  let chosen := if Str.contains "Not found" error then not_found_sheet else error_sheet in
  let other := if Str.contains "Not found" error then error_sheet else not_found_sheet in
  out.2 = Some row_index ∧
  main_sheet book' = main_sheet book ∧
  other book' = other book ∧
  chosen book' !! (1, 0) = Some (CellString plex_library_title) ∧
  chosen book' !! (1, 1) = Some (CellString (title show)) ∧
  chosen book' !! (1, 2) = match year show with
                           | Some y => Some (CellNumber y)
                           | None => chosen book !! (1, 2)
                           end ∧
  chosen book' !! (1, 3) = Some (CellString error) ∧
  (∀ i c, i ≠ 1 ∨ 3 < c → chosen book' !! (i, c) = chosen book !! (i, c)) ∧
  (no_id (extract_tvdb_id (guids show)) = true →
   search tvdb_client (title show) = Ok [] →
   Str.contains "Not found" error = true).
Proof.
  intros Hres out book' chosen other. subst out book' chosen other.
  rewrite (process_show_failed _ _ _ _ _ _ _ _ _ Hres). simpl.
  pose proof (write_error_row_cells (not_found_sheet book) plex_library_title
                (title show) (year show) error) as Hnf.
  pose proof (write_error_row_cells (error_sheet book) plex_library_title
                (title show) (year show) error) as Herr.
  cbn zeta in Hnf, Herr.
  assert (Hzero : no_id (extract_tvdb_id (guids show)) = true →
                  search tvdb_client (title show) = Ok [] →
                  Str.contains "Not found" error = true).
  { intros Hid Hsearch. by rewrite (zero_results_error _ _ _ _ _ _ _ Hid Hsearch Hres). }
  unfold report_error.
  destruct (Str.contains "Not found" error); simpl.
  - destruct Hnf as (Hc0 & Hc1 & Hc2 & Hc3 & Hrest). by split_and!.
  - destruct Herr as (Hc0 & Hc1 & Hc2 & Hc3 & Hrest). by split_and!.
Qed.

Lemma failed_show_writes_error_row_at_row_1_witness :
  get_tvdb_data Sample.empty_client "The Show" (Some 2005%Z) None Sample.world0
  = (Failed "Not found on TVDB", record (Searched "The Show") Sample.world0) ∧
  (process_show id Sample.show_unknown "TV" Sample.empty_client 7
     setup_worksheets Sample.world0).2 = Some 7.
Proof.
  assert (Hres : get_tvdb_data Sample.empty_client (title Sample.show_unknown)
                   (year Sample.show_unknown) (extract_tvdb_id (guids Sample.show_unknown))
                   Sample.world0
                 = (Failed "Not found on TVDB", record (Searched "The Show") Sample.world0))
    by reflexivity.
  split; [exact Hres|].
  exact (proj1 (failed_show_writes_error_row_at_row_1 id Sample.show_unknown "TV"
                  Sample.empty_client 7 setup_worksheets Sample.world0 _ _ Hres)).
Defined.

(** ** The cache *)

Lemma is_cache_valid_fresh w cache_file :
  is_cache_valid w cache_file = true ↔
  ∃ f, files w !! cache_file = Some f ∧
       (now w - mtime f < timedelta_days CACHE_EXPIRY_DAYS)%Z.
Proof.
  unfold is_cache_valid. destruct (files w !! cache_file) as [f|].
  - rewrite Z.ltb_lt. split.
    + intros Hlt. exists f. split; [done|lia].
    + intros (f' & [= <-] & Hlt). lia.
  - split; [done|]. by intros (f & Hf & _).
Qed.

(** The season loop only adds to the log. *)
Lemma fetch_seasons_world tvdb_client refs fetched w :
  let w' := (fetch_seasons tvdb_client refs fetched w).2 in
  files w' = files w ∧ now w' = now w ∧ write_error w' = write_error w ∧
  ∃ more, actions w' = (actions w ++ more)%list.
Proof.
  revert fetched w. induction refs as [|season rest IH]; intros fetched w; simpl.
  - split_and!; [done..|]. exists []. by rewrite app_nil_r.
  - destruct (skips season) as [[|]|e]; simpl.
    + apply IH.
    + assert (∀ acc,
                 let w' := (fetch_seasons tvdb_client rest acc
                              (record (FetchedSeason (ref_id season)) w)).2 in
                 files w' = files w ∧ now w' = now w ∧ write_error w' = write_error w ∧
                 ∃ more, actions w' = (actions w ++ more)%list) as Hrest.
      { intros acc. destruct (IH acc (record (FetchedSeason (ref_id season)) w))
          as (Hf & Hn & He & more & Ha).
        simpl in *. split_and!; [done..|].
        exists (FetchedSeason (ref_id season) :: more). rewrite Ha.
        by rewrite <- app_assoc. }
      destruct (get_season_extended tvdb_client (ref_id season)); apply Hrest.
    + split_and!; [done..|]. exists []. by rewrite app_nil_r.
Qed.

(** A fetch starts with the call for the series. *)
Lemma fetch_show_attempt tvdb_client tvdb_id cache_file w :
  ∃ more, actions (fetch_show tvdb_client tvdb_id cache_file w).2
          = (actions w ++ FetchedSeries tvdb_id :: more)%list.
Proof.
  unfold fetch_show.
  destruct (get_series_extended tvdb_client tvdb_id) as [series_data|e]; [|by exists []].
  destruct (fetch_seasons_world tvdb_client (series_seasons series_data) []
              (record (FetchedSeries tvdb_id) w)) as (Hf & Hn & He & more & Ha).
  destruct (fetch_seasons _ _ _ _) as [[fetched|e] w1]; simpl in *.
  - unfold save_cache. destruct (write_error w1 cache_file) as [[e|e]|]; simpl.
    + exists more. rewrite Ha. by rewrite <- app_assoc.
    + exists more. rewrite Ha. by rewrite <- app_assoc.
    + exists (more ++ [WroteCache cache_file])%list. rewrite Ha.
      by rewrite <- !app_assoc.
  - exists more. rewrite Ha. by rewrite <- app_assoc.
Qed.

(** A fetch that returns the data has written it to the cache. *)
Lemma fetch_show_writes tvdb_client tvdb_id cache_file w tvdb_data w' :
  fetch_show tvdb_client tvdb_id cache_file w = (Resolved tvdb_data, w') →
  files w' !! cache_file = Some {| mtime := now w; content := Some tvdb_data |} ∧
  ∃ more, actions w'
          = (actions w ++ FetchedSeries tvdb_id :: more ++ [WroteCache cache_file])%list.
Proof.
  unfold fetch_show.
  destruct (get_series_extended tvdb_client tvdb_id) as [series_data|e]; [|done].
  destruct (fetch_seasons_world tvdb_client (series_seasons series_data) []
              (record (FetchedSeries tvdb_id) w)) as (Hf & Hn & He & more & Ha).
  destruct (fetch_seasons _ _ _ _) as [[fetched|e] w1]; simpl in *; [|done].
  unfold save_cache. destruct (write_error w1 cache_file) as [[e|e]|]; [done..|].
  intros [= <- <-]. simpl. split.
  - by rewrite lookup_insert_eq, Hn.
  - exists more. rewrite Ha. by rewrite <- !app_assoc.
Qed.

(** C6 as stated fails twice.  A cache file inside the expiry window that
    does not parse is not returned: the catalogue is asked again.  And when
    the fetch that replaces a stale entry raises, no cache write follows. *)
Lemma fresh_cache_is_not_always_reused :
  ¬ (∀ (tvdb_client : TvdbClient) (show_title : string) (show_year : option Z)
       (tvdb_id : string) (w : World),
        no_id (Some tvdb_id) = false →
        (∃ show_data,
            get_tvdb_data tvdb_client show_title show_year (Some tvdb_id) w
            = (Resolved show_data, record (ReadCache (get_cache_filename tvdb_id)) w))
        ↔ (∃ f, files w !! get_cache_filename tvdb_id = Some f ∧
                (now w - mtime f < timedelta_days CACHE_EXPIRY_DAYS)%Z))
  ∧
  ¬ (∀ (tvdb_client : TvdbClient) (show_title : string) (show_year : option Z)
       (tvdb_id : string) (w : World) (f : CacheFile),
        no_id (Some tvdb_id) = false →
        files w !! get_cache_filename tvdb_id = Some f →
        (timedelta_days CACHE_EXPIRY_DAYS ≤ now w - mtime f)%Z →
        WroteCache (get_cache_filename tvdb_id)
        ∈ actions (get_tvdb_data tvdb_client show_title show_year (Some tvdb_id) w).2).
Proof.
  split.
  - intros Hclaim.
    destruct (Hclaim Sample.client "The Show" (Some 2005%Z) "121361" Sample.world_garbled
                eq_refl) as [_ Hreuse].
    destruct Hreuse as [show_data Hdata].
    + exists {| mtime := (99 * Sample.day)%Z; content := None |}.
      split; [reflexivity | by vm_compute].
    + vm_compute in Hdata. discriminate Hdata.
  - intros Hclaim.
    specialize (Hclaim Sample.failing_client "The Show" (Some 2005%Z) "121361"
                  Sample.world_stale
                  {| mtime := (80 * Sample.day)%Z; content := Some Sample.data1 |}
                  eq_refl eq_refl).
    assert (Hlog : actions (get_tvdb_data Sample.failing_client "The Show" (Some 2005%Z)
                              (Some "121361") Sample.world_stale).2
                   = [FetchedSeries "121361"]) by reflexivity.
    rewrite Hlog in Hclaim.
    assert (Hin : WroteCache (get_cache_filename "121361") ∈ [FetchedSeries "121361"]).
    { apply Hclaim. by vm_compute. }
    apply list_elem_of_singleton in Hin. discriminate Hin.
Qed.

(** C6, amended.  For the identifier the resolver settles on, the cached
    data is returned with no call to the catalogue (reading the cache is the
    only action) if and only if a cache file for the identifier exists, its
    last-write time is within the expiry window of 14 days, and it can be read
    and parsed.  In every other case the resolver fetches: an entry as old as
    the window or older is never reused, a fetch always begins with the call
    for the series, and a fetch that returns the data has written it to the
    cache file with the current time as its last-write time. *)
Theorem cache_reused_iff_fresh_and_readable
    (tvdb_client : TvdbClient) (show_title : string) (show_year : option Z)
    (given : option string) (w : World) (tvdb_id : string) (w1 : World) :
  resolve_id tvdb_client show_title show_year given w = (inl tvdb_id, w1) →
  let cache_file := get_cache_filename tvdb_id in
  let out := get_tvdb_data tvdb_client show_title show_year given w in
  (∀ show_data,
      out = (Resolved show_data, record (ReadCache cache_file) w1)
      ↔ ∃ f, files w1 !! cache_file = Some f ∧
             (now w1 - mtime f < timedelta_days CACHE_EXPIRY_DAYS)%Z ∧
             content f = Some show_data) ∧
  ((∀ show_data, out ≠ (Resolved show_data, record (ReadCache cache_file) w1)) →
   out = fetch_show tvdb_client tvdb_id cache_file w1 ∨
   out = fetch_show tvdb_client tvdb_id cache_file (record (ReadCache cache_file) w1)) ∧
  (∀ f, files w1 !! cache_file = Some f →
        (timedelta_days CACHE_EXPIRY_DAYS ≤ now w1 - mtime f)%Z →
        out = fetch_show tvdb_client tvdb_id cache_file w1) ∧
  (∀ w2, ∃ more,
      actions (fetch_show tvdb_client tvdb_id cache_file w2).2
      = (actions w2 ++ FetchedSeries tvdb_id :: more)%list) ∧
  (∀ w2 show_data w',
      fetch_show tvdb_client tvdb_id cache_file w2 = (Resolved show_data, w') →
      files w' !! cache_file = Some {| mtime := now w2; content := Some show_data |} ∧
      ∃ more, actions w'
              = (actions w2 ++ FetchedSeries tvdb_id :: more ++ [WroteCache cache_file])%list).
Proof.
  intros Hid cache_file out.
  assert (Hout : out = if is_cache_valid w1 cache_file then
                         match files w1 !! cache_file ≫= content with
                         | Some show_data =>
                             (Resolved show_data, record (ReadCache cache_file) w1)
                         | None =>
                             fetch_show tvdb_client tvdb_id cache_file
                               (record (ReadCache cache_file) w1)
                         end
                       else fetch_show tvdb_client tvdb_id cache_file w1).
  { subst out. unfold get_tvdb_data. by rewrite Hid. }
  assert (Hnot : ∀ show_data w2,
             (w2 = w1 ∨ w2 = record (ReadCache cache_file) w1) →
             fetch_show tvdb_client tvdb_id cache_file w2
             ≠ (Resolved show_data, record (ReadCache cache_file) w1)).
  { intros show_data w2 Hw2 Heq.
    destruct (fetch_show_attempt tvdb_client tvdb_id cache_file w2) as [more Hmore].
    rewrite Heq in Hmore. simpl in Hmore.
    destruct Hw2 as [-> | ->]; simpl in Hmore.
    - by apply app_inv_head in Hmore.
    - apply (f_equal length) in Hmore. rewrite !length_app in Hmore. simpl in Hmore. lia. }
  split_and!.
  - intros show_data. rewrite Hout. split.
    + destruct (is_cache_valid w1 cache_file) eqn:Hvalid.
      * apply is_cache_valid_fresh in Hvalid as (f & Hf & Hfresh).
        rewrite Hf. simpl. destruct (content f) as [cached|] eqn:Hcontent.
        -- intros [= <-]. by exists f.
        -- intros Heq. exfalso. by eapply Hnot; [right|].
      * intros Heq. exfalso. by eapply Hnot; [left|].
    + intros (f & Hf & Hfresh & Hcontent).
      assert (is_cache_valid w1 cache_file = true) as ->
          by (apply is_cache_valid_fresh; by exists f).
      rewrite Hf. simpl. by rewrite Hcontent.
  - intros Hnone. rewrite Hout in *.
    destruct (is_cache_valid w1 cache_file); [|by left].
    destruct (files w1 !! cache_file ≫= content) as [cached|]; [|by right].
    by destruct (Hnone cached).
  - intros f Hf Hstale. rewrite Hout.
    destruct (is_cache_valid w1 cache_file) eqn:Hvalid; [|done].
    apply is_cache_valid_fresh in Hvalid as (f' & Hf' & Hfresh).
    rewrite Hf in Hf'. injection Hf' as <-. lia.
  - intros w2. apply fetch_show_attempt.
  - intros w2 show_data w'. apply fetch_show_writes.
Qed.

Lemma cache_reused_iff_fresh_and_readable_witness :
  resolve_id Sample.client "The Show" (Some 2005%Z) (Some "121361") Sample.world_cached
  = (inl "121361", Sample.world_cached) ∧
  get_tvdb_data Sample.client "The Show" (Some 2005%Z) (Some "121361") Sample.world_cached
  = (Resolved Sample.data1, record (ReadCache Sample.cache_file1) Sample.world_cached).
Proof.
  split; [reflexivity|].
  apply (proj1 (cache_reused_iff_fresh_and_readable Sample.client "The Show" (Some 2005%Z)
                  (Some "121361") Sample.world_cached "121361" Sample.world_cached
                  eq_refl) Sample.data1).
  exists {| mtime := (99 * Sample.day)%Z; content := Some Sample.data1 |}.
  split_and!; [reflexivity | by vm_compute | reflexivity].
Defined.

Lemma interrupt_finishes_current_show_only_witness :
  let r := run id Sample.client [Step; Step; Signal]
             (start (Some [Sample.films; Sample.tv]) Sample.world0) in
  let r' := run id Sample.client [Step; Signal; Step; Step] r in
  terminate r = true ∧ 3 ≤ steps [Step; Signal; Step; Step] ∧
  phase r' = Finished ∧ closed (wb r') = true ∧ row_index r' = 3.
Proof.
  intros r r'.
  assert (Hflag : terminate r = true) by (vm_compute; reflexivity).
  assert (Hsteps : 3 ≤ steps [Step; Signal; Step; Step]) by (simpl; lia).
  destruct (interrupt_finishes_current_show_only id Sample.client
              (Some [Sample.films; Sample.tv]) Sample.world0
              [Step; Step; Signal] [Step; Signal; Step; Step] Hflag Hsteps)
    as (Hphase & Hclosed & Hout).
  split_and!; [exact Hflag | exact Hsteps | exact Hphase | exact Hclosed |].
  vm_compute. reflexivity.
Defined.

(** X11. When no identifier is given and the show has no year (or the year
    0, which the script's test takes for none), the scan matches nothing and
    the first result of a non-empty search is taken, whatever the years of the
    results. *)
Lemma search_without_year_takes_first tvdb_client show_title show_year tvdb_id w r rest :
  no_id tvdb_id = true →
  search tvdb_client show_title = Ok (r :: rest) →
  show_year = None ∨ show_year = Some 0%Z →
  resolve_id tvdb_client show_title show_year tvdb_id w
  = (inl (sr_tvdb_id r), record (Searched show_title) w).
Proof.
  intros Hid Hsearch Hyear. unfold resolve_id. rewrite Hid, Hsearch.
  assert (Hnone : ∀ l, year_match show_year l = None).
  { intros l. induction l as [|r0 l IH]; [done|]. simpl.
    by destruct Hyear as [-> | ->]. }
  unfold best_match. by rewrite Hnone.
Qed.

(** ** The occurrence count is the number of files handled *)

Section Counting.

Variable absolute_path : string -> string.

Lemma store2_season {V} (d : gmap Z (gmap Z V)) s e v s' :
  store2 d s e v !! s' = None ↔ s ≠ s' ∧ d !! s' = None.
Proof.
  unfold store2. destruct (decide (s = s')) as [->|Hne].
  - rewrite lookup_insert_eq. split; [done|]. by intros [? _].
  - rewrite lookup_insert_ne by done. split; [done|]. by intros [_ ?].
Qed.

Lemma lookup2_season {V} (d : gmap Z (gmap Z V)) s e :
  is_Some (lookup2 d s e) → d !! s ≠ None.
Proof. unfold lookup2. destruct (d !! s); [done|]. by intros [? ?]. Qed.

Lemma add_part_occurrences episode file inv s e :
  occurrences (add_part absolute_path episode file inv) s e
  = occurrences inv s e + (if has_key s e (episode, file) then 1 else 0).
Proof.
  assert (Hcount : plex_episodes_count (add_part absolute_path episode file inv)
                   = store2 (plex_episodes_count inv) (seasonNumber episode) (index episode)
                       (occurrences inv (seasonNumber episode) (index episode) + 1)).
  { unfold add_part, occurrences.
    destruct (lookup2 (plex_episodes_count inv) (seasonNumber episode) (index episode));
      destruct (lookup2 (plex_episodes inv) (seasonNumber episode) (index episode));
      try destruct (truthy (locations episode)); done. }
  unfold occurrences at 1. rewrite Hcount, lookup2_store2. unfold has_key. simpl.
  case_decide as Hkey.
  - destruct Hkey as [<- <-]. rewrite !Z.eqb_refl. done.
  - destruct (Z.eqb_spec (seasonNumber episode) s) as [Hs|Hs];
      destruct (Z.eqb_spec (index episode) e) as [He|He]; simpl;
      try (exfalso; by apply Hkey); unfold occurrences; lia.
Qed.

Lemma add_part_synced episode file inv :
  synced inv → synced (add_part absolute_path episode file inv).
Proof.
  intros [Hseasons Hkeys]. split.
  - intros s. unfold add_part.
    destruct (lookup2 (plex_episodes inv) (seasonNumber episode) (index episode))
      as [existing_ep|] eqn:Hold.
    + assert (plex_episodes inv !! seasonNumber episode ≠ None) as Hseason
          by (apply (lookup2_season _ _ (index episode)); by rewrite Hold).
      destruct (truthy (locations episode)); simpl; rewrite ?store2_season.
      * by rewrite (Hseasons s).
      * rewrite (Hseasons s). split; [|by intros [_ ?]].
        intros Hs. split; [|done]. intros Heq. rewrite <- Heq in Hs.
        by apply Hseasons in Hs.
    + simpl. rewrite !store2_season. by rewrite (Hseasons s).
  - intros s e. rewrite add_part_occurrences. unfold has_key. simpl.
    assert (Hrec : is_Some (lookup2 (plex_episodes (add_part absolute_path episode file inv)) s e)
                   ↔ (seasonNumber episode = s ∧ index episode = e)
                     ∨ is_Some (lookup2 (plex_episodes inv) s e)).
    { unfold add_part.
      destruct (lookup2 (plex_episodes inv) (seasonNumber episode) (index episode))
        as [existing_ep|] eqn:Hold.
      - destruct (truthy (locations episode)); simpl.
        + rewrite lookup2_store2.
          case_decide as Hkey; [split; [by left | by eexists] |].
          split; [by right | by intros [?|?]].
        + split; [by right|]. intros [[<- <-]|Hin]; [by rewrite Hold | done].
      - simpl. rewrite lookup2_store2.
        case_decide as Hkey; [split; [by left | by eexists] |].
        split; [by right | by intros [?|?]]. }
    rewrite Hrec, (Hkeys s e).
    destruct (Z.eqb_spec (seasonNumber episode) s) as [Hs|Hs];
      destruct (Z.eqb_spec (index episode) e) as [He|He]; simpl;
      split; try (intros [[? ?]|?]; [done|lia]); try (intros ?; right; lia);
      try (intros ?; left; done); try lia.
Qed.

Lemma open_season_synced season_num inv :
  synced inv →
  synced (open_season season_num inv) ∧
  ∀ s e, occurrences (open_season season_num inv) s e = occurrences inv s e.
Proof.
  intros [Hseasons Hkeys]. unfold open_season.
  destruct (plex_episodes inv !! season_num) eqn:Hs; [done|].
  assert (Hsame : ∀ s e,
             occurrences {| plex_episodes := <[season_num:=∅]> (plex_episodes inv);
                            plex_episodes_count := <[season_num:=∅]> (plex_episodes_count inv) |}
               s e = occurrences inv s e).
  { intros s e. unfold occurrences. simpl.
    rewrite lookup2_insert_empty; [done|]. by apply Hseasons. }
  split; [|done]. split.
  - intros s. simpl. destruct (decide (season_num = s)) as [->|Hne].
    + by rewrite !lookup_insert_eq.
    + rewrite !lookup_insert_ne by done. apply Hseasons.
  - intros s e. rewrite Hsame. simpl. rewrite lookup2_insert_empty by done. apply Hkeys.
Qed.

Lemma filter_key_none s e (entries : list (PlexEpisode * string)) :
  length (List.filter (has_key s e) entries) = 0 →
  paths_for absolute_path s e entries = [].
Proof.
  unfold paths_for. induction entries as [|entry rest IH]; [done|]. simpl.
  destruct (has_key s e entry); simpl; [done|]. apply IH.
Qed.

Lemma paths_for_snoc s e entries episode file :
  paths_for absolute_path s e (entries ++ [(episode, file)])
  = (paths_for absolute_path s e entries
     ++ if has_key s e (episode, file) && truthy (locations episode)
        then [absolute_path file] else [])%list.
Proof.
  unfold paths_for. rewrite List.filter_app, map_app. simpl.
  by destruct (has_key s e (episode, file) && truthy (locations episode)).
Qed.

Lemma has_key_spec s e entry :
  has_key s e entry = true ↔ seasonNumber entry.1 = s ∧ index entry.1 = e.
Proof. unfold has_key. rewrite andb_true_iff, !Z.eqb_eq. done. Qed.

Lemma add_part_tracks episode file inv entries :
  tracks absolute_path inv entries →
  tracks absolute_path (add_part absolute_path episode file inv)
    (entries ++ [(episode, file)]).
Proof.
  intros (Hsync & Hcount & Hpaths). split_and!.
  - by apply add_part_synced.
  - intros s e. rewrite add_part_occurrences, Hcount, List.filter_app, length_app. simpl.
    by destruct (has_key s e (episode, file)).
  - intros s e rec. rewrite paths_for_snoc. unfold add_part.
    destruct (lookup2 (plex_episodes inv) (seasonNumber episode) (index episode))
      as [existing_ep|] eqn:Hold.
    + destruct (truthy (locations episode)) eqn:Hloc; simpl.
      * rewrite lookup2_store2. case_decide as Hkey.
        -- destruct Hkey as [<- <-]. intros [= <-].
           assert (has_key (seasonNumber episode) (index episode) (episode, file) = true)
             as -> by by apply has_key_spec.
           simpl. rewrite <- (Hpaths _ _ _ Hold). unfold file_paths. simpl.
           by destruct (combined_locations existing_ep).
        -- intros Hrec. rewrite (Hpaths _ _ _ Hrec).
           destruct (has_key s e (episode, file)) eqn:Hk; simpl; [|by rewrite app_nil_r].
           apply has_key_spec in Hk. by destruct Hkey.
      * intros Hrec. rewrite (Hpaths _ _ _ Hrec), andb_false_r. by rewrite app_nil_r.
    + simpl. rewrite lookup2_store2. case_decide as Hkey.
      * destruct Hkey as [<- <-]. intros [= <-].
        assert (has_key (seasonNumber episode) (index episode) (episode, file) = true)
          as -> by by apply has_key_spec.
        rewrite filter_key_none.
        -- unfold file_paths. simpl. by destruct (truthy (locations episode)).
        -- rewrite <- Hcount. destruct Hsync as [_ Hkeys].
           destruct (Nat.eq_dec (occurrences inv (seasonNumber episode) (index episode)) 0)
             as [Hzero|Hpos]; [done|].
           assert (is_Some (lookup2 (plex_episodes inv) (seasonNumber episode)
                              (index episode))) as [? Hsome] by (apply Hkeys; lia).
           by rewrite Hold in Hsome.
      * intros Hrec. rewrite (Hpaths _ _ _ Hrec).
        destruct (has_key s e (episode, file)) eqn:Hk; simpl; [|by rewrite app_nil_r].
        apply has_key_spec in Hk. by destruct Hkey.
Qed.

Lemma open_season_tracks season_num inv entries :
  tracks absolute_path inv entries →
  tracks absolute_path (open_season season_num inv) entries.
Proof.
  intros (Hsync & Hcount & Hpaths).
  destruct (open_season_synced season_num inv Hsync) as [Hsync' Hsame].
  split_and!; [done| |].
  - intros s e. by rewrite Hsame.
  - intros s e rec. rewrite open_season_lookup. apply Hpaths.
Qed.

Lemma add_parts_tracks episode parts inv entries :
  tracks absolute_path inv entries →
  tracks absolute_path (add_parts absolute_path episode parts inv).1
    (entries ++ (handled_parts episode parts).1) ∧
  (add_parts absolute_path episode parts inv).2 = (handled_parts episode parts).2.
Proof.
  revert inv entries.
  induction parts as [|[file|] rest IH]; intros inv entries Hinv; simpl.
  - by rewrite app_nil_r.
  - destruct (IH _ _ (add_part_tracks episode file inv entries Hinv)) as [Htracks Hflag].
    destruct (handled_parts episode rest) as [entries' raised]. simpl in *.
    by rewrite <- app_assoc in Htracks.
  - by rewrite app_nil_r.
Qed.

Lemma add_episodes_tracks eps inv entries :
  tracks absolute_path inv entries →
  tracks absolute_path (add_episodes absolute_path eps inv).1
    (entries ++ (handled_episodes eps).1).
Proof.
  revert inv entries. induction eps as [|episode rest IH]; intros inv entries Hinv; simpl.
  - by rewrite app_nil_r.
  - destruct (add_parts_tracks episode (iterParts episode)
                (open_season (seasonNumber episode) inv) entries
                (open_season_tracks _ _ _ Hinv)) as [Htracks Hflag].
    destruct (add_parts absolute_path episode (iterParts episode)
                (open_season (seasonNumber episode) inv)) as [inv' raised].
    destruct (handled_parts episode (iterParts episode)) as [entries' raised'].
    simpl in *. subst raised'. destruct raised; simpl; [done|].
    specialize (IH _ _ Htracks).
    destruct (handled_episodes rest) as [entries'' raised'']. simpl in *.
    by rewrite <- app_assoc in IH.
Qed.

Lemma empty_inventory_synced : synced empty_inventory.
Proof.
  split.
  - intros s. simpl. by rewrite !lookup_empty.
  - intros s e. unfold occurrences. simpl. rewrite !lookup2_empty. simpl.
    split; [by intros [? ?] | lia].
Qed.

Lemma build_inventory_tracks show :
  tracks absolute_path (build_inventory absolute_path show) (handled show).
Proof.
  assert (Hempty : tracks absolute_path empty_inventory []).
  { split_and!; [apply empty_inventory_synced | |].
    - intros s e. unfold occurrences. simpl. by rewrite lookup2_empty.
    - intros s e rec. simpl. by rewrite lookup2_empty. }
  unfold build_inventory, handled. destruct (episodes show) as [eps|]; [|done].
  apply (add_episodes_tracks eps empty_inventory [] Hempty).
Qed.

(** X3. The inventory in terms of the files the builder handled (all files
    in order up to the first failure): the occurrence count of a key is the
    number of its files, the key has a record exactly when there is at least
    one, and the record's file-path list holds the normalised paths of those
    files whose episode reports locations, in order. *)
Lemma inventory_counts_handled_files show season_num episode_num :
  let inv := build_inventory absolute_path show in
  let files := List.filter (has_key season_num episode_num) (handled show) in
  occurrences inv season_num episode_num = length files ∧
  (is_Some (lookup2 (plex_episodes inv) season_num episode_num) ↔ 0 < length files) ∧
  (∀ rec, lookup2 (plex_episodes inv) season_num episode_num = Some rec →
          file_paths rec = paths_for absolute_path season_num episode_num (handled show)).
Proof.
  destruct (build_inventory_tracks show) as ([_ Hkeys] & Hcount & Hpaths).
  simpl. split_and!.
  - apply Hcount.
  - rewrite <- Hcount. apply Hkeys.
  - apply Hpaths.
Qed.

End Counting.

(** ** The example of the specification *)

(** Season 1 has the episodes 1 and 2 and the server holds one file for
    episode 1: two rows, the first present with its file, the second
    missing; the second has no air date and its date cell stays empty. *)
Example one_file_of_two_episodes :
  let '(book, _, row) :=
    process_show id Sample.show1 "TV" Sample.client 1 setup_worksheets Sample.world0 in
  row = Some 3 ∧
  main_sheet book !! (1, 7) = Some (CellNumber 1) ∧
  main_sheet book !! (1, 8) = Some (CellString "2005-01-01") ∧
  main_sheet book !! (2, 8) = None ∧
  main_sheet book !! (1, 9) = Some (CellBoolean false) ∧
  main_sheet book !! (1, 10) = Some (CellBoolean false) ∧
  main_sheet book !! (1, 12) = Some (CellString "/media/s01e01.mkv") ∧
  main_sheet book !! (2, 7) = Some (CellNumber 2) ∧
  main_sheet book !! (2, 9) = Some (CellBoolean true) ∧
  main_sheet book !! (2, 10) = Some (CellBoolean false) ∧
  main_sheet book !! (2, 12) = Some (CellString "").
Proof. vm_compute. done. Qed.

(** ** The substring test *)

Lemma prefix_drop sep s :
  String.prefix sep s = true → s = sep ++ Str.drop (String.length sep) s.
Proof.
  revert s. induction sep as [|c sep IH]; intros s; [done|].
  destruct s as [|c' s]; simpl; [done|].
  destruct (Ascii.ascii_dec c c') as [->|Hne]; [|done].
  intros Hprefix.
  change (String c' s = String c' (sep ++ Str.drop (String.length sep) s)).
  f_equal. by apply IH.
Qed.

Lemma prefix_app sep rest : String.prefix sep (sep ++ rest) = true.
Proof.
  induction sep as [|c sep IH].
  - change (String.prefix "" rest = true). by destruct rest.
  - change (String.prefix (String c sep) (String c (sep ++ rest)) = true). simpl.
    by destruct (Ascii.ascii_dec c c).
Qed.

Lemma cut_prefix sep s :
  String.prefix sep s = true → Str.cut sep s = Some ("", Str.drop (String.length sep) s).
Proof. intros Hprefix. destruct s; cbn [Str.cut]; by rewrite Hprefix. Qed.

Lemma cut_sound sep s before after :
  Str.cut sep s = Some (before, after) → s = before ++ sep ++ after.
Proof.
  revert before. induction s as [|c s IH]; intros before; cbn [Str.cut].
  - destruct (String.prefix sep "") eqn:Hprefix; [|done].
    intros [= <- <-]. exact (prefix_drop _ _ Hprefix).
  - destruct (String.prefix sep (String c s)) eqn:Hprefix.
    + intros [= <- <-]. exact (prefix_drop _ _ Hprefix).
    + destruct (Str.cut sep s) as [[before' after']|] eqn:Hcut; [|done].
      intros [= <- <-].
      change (String c s = String c (before' ++ sep ++ after')).
      f_equal. by apply IH.
Qed.

Lemma cut_complete sep before after : is_Some (Str.cut sep (before ++ sep ++ after)).
Proof.
  induction before as [|c before IH].
  - change (is_Some (Str.cut sep (sep ++ after))).
    rewrite cut_prefix by apply prefix_app. by eexists.
  - change (is_Some (Str.cut sep (String c (before ++ sep ++ after)))). cbn [Str.cut].
    destruct (String.prefix sep (String c (before ++ sep ++ after))); [by eexists|].
    destruct IH as [[before' after'] ->]. by eexists.
Qed.

(** [Str.contains] is Python's [in] on strings. *)
Lemma contains_spec sub s :
  Str.contains sub s = true ↔ ∃ before after, s = before ++ sub ++ after.
Proof.
  unfold Str.contains. split.
  - destruct (Str.cut sub s) as [[before after]|] eqn:Hcut; [|done].
    intros _. exists before, after. by apply cut_sound.
  - intros (before & after & ->).
    by destruct (cut_complete sub before after) as [? ->].
Qed.

(** ** The identifier in the guids *)

Lemma cut_tvdb rest : Str.cut "//" ("tvdb://" ++ rest) = Some ("tvdb:", rest).
Proof.
  change ("tvdb://" ++ rest)
    with (String "t" (String "v" (String "d" (String "b" (String ":"
            (String "/" (String "/" rest))))))).
  cbn. by destruct rest.
Qed.

Lemma contains_tvdb_has_slashes guid :
  Str.contains "tvdb://" guid = true → is_Some (Str.split_second "//" guid).
Proof.
  intros (before & after & ->)%contains_spec. unfold Str.split_second.
  assert (before ++ "tvdb://" ++ after = before ++ "tvdb:" ++ "//" ++ after) as Hshape
      by reflexivity.
  assert (∀ a b c : string, a ++ b ++ c = (a ++ b) ++ c) as Hassoc.
  { intros a b c. induction a as [|x a IH]; [done|].
    change (String x (a ++ b ++ c) = String x ((a ++ b) ++ c)). by rewrite IH. }
  rewrite Hshape, Hassoc.
  destruct (cut_complete "//" (before ++ "tvdb:") after) as [[piece rest] ->].
  destruct (Str.cut "//" rest) as [[? ?]|]; by eexists.
Qed.

(** X1. [extract_tvdb_id] returns no identifier exactly when no guid of the
    list contains "tvdb://": a guid that contains it always has a second
    piece for [split("//")[1]], so the subscript never fails. *)
Theorem extract_tvdb_id_none_iff (guids : list string) :
  extract_tvdb_id guids = None ↔ Forall (fun guid => Str.contains "tvdb://" guid = false) guids.
Proof.
  induction guids as [|guid rest IH]; simpl.
  - split; [constructor | done].
  - destruct (Str.contains "tvdb://" guid) eqn:Hguid.
    + split.
      * intros Hnone. destruct (contains_tvdb_has_slashes guid Hguid) as [piece Hpiece].
        by rewrite Hpiece in Hnone.
      * intros Hall. inversion Hall as [|? ? Hfirst _]; subst. by rewrite Hguid in Hfirst.
    + rewrite IH. split.
      * intros Hrest. by constructor.
      * intros Hall. by inversion Hall.
Qed.

(** X2. The identifier comes from the first guid that contains "tvdb://",
    whatever follows it in the list: for a guid "tvdb://ID" it is the text ID
    up to its first "//", so ID itself when ID has no "//". *)
Theorem extract_tvdb_id_first_match (before rest : list string) (tvdb_id : string) :
  Forall (fun guid => Str.contains "tvdb://" guid = false) before →
  Str.contains "//" tvdb_id = false →
  extract_tvdb_id (before ++ ("tvdb://" ++ tvdb_id)%string :: rest)%list = Some tvdb_id.
Proof.
  intros Hbefore Hplain. induction Hbefore as [|guid before Hguid _ IH]; simpl.
  - assert (Str.contains "tvdb://" ("tvdb://" ++ tvdb_id) = true) as ->.
    { apply contains_spec. by exists "", tvdb_id. }
    unfold Str.split_second. rewrite cut_tvdb.
    unfold Str.contains in Hplain. by destruct (Str.cut "//" tvdb_id).
  - by rewrite Hguid.
Qed.

Lemma extract_tvdb_id_first_match_witness :
  extract_tvdb_id
    (["imdb://tt0000001"] ++ ("tvdb://" ++ "121361")%string :: ["tmdb://42"])%list
  = Some "121361".
Proof.
  apply extract_tvdb_id_first_match; [repeat constructor | reflexivity].
Defined.

(** ** Reconciliation against the files of the server *)

(** X4. What the reconciler reports for a key, in terms of the files handled
    for it: with no such file the episode is missing; otherwise it is present,
    a duplicate exactly when more than one file was handled, and its file path
    is the newline-join of the paths of the files whose episode reports
    locations (so a file of an episode without locations counts but leaves no
    path). *)
Theorem reconcile_by_handled_files
    (absolute_path : string -> string) (show : PlexShow) (season_num episode_num : Z) :
  let files := List.filter (has_key season_num episode_num) (handled show) in
  reconcile (build_inventory absolute_path show) season_num episode_num
  = match files with
    | [] => (true, false, "")
    | _ :: _ =>
        (false, Nat.ltb 1 (length files),
         Str.join Str.newline (paths_for absolute_path season_num episode_num (handled show)))
    end.
Proof.
  intros files.
  destruct (build_inventory_tracks absolute_path show) as ([_ Hkeys] & Hcount & Hpaths).
  specialize (Hkeys season_num episode_num). rewrite Hcount in Hkeys. fold files in Hkeys.
  destruct (lookup2 (plex_episodes (build_inventory absolute_path show)) season_num episode_num)
    as [rec|] eqn:Hrec.
  - rewrite (reconcile_present _ _ _ rec (build_inventory_coherent absolute_path show) Hrec).
    rewrite Hcount, (Hpaths _ _ _ Hrec). fold files.
    destruct files; [|done].
    assert (0 < 0) by (apply Hkeys; by eexists). lia.
  - rewrite (reconcile_absent _ _ _ Hrec).
    destruct files as [|entry rest]; [done|].
    assert (is_Some (@None StoredEpisode)) as [? ?] by (apply Hkeys; simpl; lia). done.
Qed.

Lemma handled_parts_sound episode parts :
  Forall is_Some parts →
  handled_parts episode parts = (map (pair episode) (omap id parts), false).
Proof.
  induction parts as [|part rest IH]; intros Hsound; [done|].
  inversion Hsound as [|? ? [file ->] Hrest]; subst. simpl.
  by rewrite (IH Hrest).
Qed.

Lemma handled_episodes_sound eps :
  Forall (fun episode => Forall is_Some (iterParts episode)) eps →
  handled_episodes eps
  = (flat_map (fun episode => map (pair episode) (omap id (iterParts episode))) eps, false).
Proof.
  induction eps as [|episode rest IH]; intros Hsound; [done|].
  inversion Hsound as [|? ? Hepisode Hrest]; subst. simpl.
  by rewrite (handled_parts_sound _ _ Hepisode), (IH Hrest).
Qed.

Lemma filter_key_episode season_num episode_num episode (files : list string) :
  length (List.filter (has_key season_num episode_num) (map (pair episode) files))
  = if has_key season_num episode_num (episode, "") then length files else 0.
Proof.
  induction files as [|file files IH]; simpl.
  - by destruct (has_key _ _ _).
  - change (has_key season_num episode_num (episode, file))
      with (has_key season_num episode_num (episode, "")).
    destruct (has_key season_num episode_num (episode, "")); simpl; by rewrite IH.
Qed.

Lemma length_sound_parts (parts : list (option string)) :
  Forall is_Some parts → length (omap id parts) = length parts.
Proof.
  induction 1 as [|part parts [file ->] _ IH]; [done|].
  change (omap id (Some file :: parts)) with (file :: omap id parts).
  simpl. by f_equal.
Qed.

(** X5. When the server lists the episodes and every file of every episode
    can be obtained, no file is left out: the occurrence count of a key is the
    total number of files of the episodes with that key. *)
Theorem occurrences_without_failure
    (absolute_path : string -> string) (show : PlexShow) (eps : list PlexEpisode)
    (season_num episode_num : Z) :
  episodes show = Some eps →
  Forall (fun episode => Forall is_Some (iterParts episode)) eps →
  occurrences (build_inventory absolute_path show) season_num episode_num
  = sum_list (map (fun episode =>
                     if has_key season_num episode_num (episode, "")
                     then length (iterParts episode) else 0) eps).
Proof.
  intros Heps Hsound.
  destruct (build_inventory_tracks absolute_path show) as (_ & Hcount & _).
  rewrite Hcount. unfold handled. rewrite Heps, (handled_episodes_sound _ Hsound). simpl.
  clear Heps Hcount. induction Hsound as [|episode rest Hepisode _ IH]; [done|].
  simpl. rewrite List.filter_app, length_app, IH, filter_key_episode. f_equal.
  by rewrite (length_sound_parts _ Hepisode).
Qed.

Lemma occurrences_without_failure_witness :
  occurrences (build_inventory id Sample.show1) 1 1 = 1 + 0.
Proof.
  apply (occurrences_without_failure id Sample.show1 [Sample.file1] 1 1).
  - reflexivity.
  - repeat constructor. by eexists.
Defined.

(** ** More on the resolver *)

Lemma fetch_seasons_all_inspected tvdb_client refs fetched w :
  Forall (fun season => ∃ skip, skips season = Ok skip) refs →
  (fetch_seasons tvdb_client refs fetched w).1
  = Ok (fetched ++ official_fetched tvdb_client refs)%list.
Proof.
  intros Hrefs. revert fetched w.
  induction Hrefs as [|season rest [skip Hskip] _ IH]; intros fetched w; simpl.
  - by rewrite app_nil_r.
  - rewrite Hskip. destruct skip; [apply IH|].
    destruct (get_season_extended tvdb_client (ref_id season)) as [season_extended|e].
    + rewrite IH. by rewrite <- app_assoc.
    + apply IH.
Qed.

(** X6. A fetch succeeds with the seasons it could get: when the series is
    fetched, the type of every season can be inspected and the cache file can
    be written, [fetch_show] returns the series with the official seasons
    whose own fetch returned (a season whose fetch raises is left out, the
    others stay) and stores exactly that under the cache file, stamped with
    the current time. *)
Theorem fetch_show_keeps_fetched_seasons
    (tvdb_client : TvdbClient) (tvdb_id cache_file : string) (w : World)
    (series_data : SeriesData) :
  get_series_extended tvdb_client tvdb_id = Ok series_data →
  Forall (fun season => ∃ skip, skips season = Ok skip) (series_seasons series_data) →
  write_error w cache_file = None →
  let show_data :=
    {| series := series_data;
       seasons := official_fetched tvdb_client (series_seasons series_data) |} in
  ∃ w',
    fetch_show tvdb_client tvdb_id cache_file w = (Resolved show_data, w') ∧
    files w' = <[cache_file := {| mtime := now w; content := Some show_data |}]> (files w).
Proof.
  intros Hseries Hrefs Hwrite show_data. unfold fetch_show. rewrite Hseries.
  pose proof (fetch_seasons_all_inspected tvdb_client (series_seasons series_data) []
                (record (FetchedSeries tvdb_id) w) Hrefs) as Hfetched.
  destruct (fetch_seasons_world tvdb_client (series_seasons series_data) []
              (record (FetchedSeries tvdb_id) w)) as (Hf & Hn & He & _).
  destruct (fetch_seasons _ _ _ _) as [res w1]. simpl in *. subst res.
  unfold save_cache. rewrite He, Hwrite. eexists. split; [done|].
  simpl. by rewrite Hf, Hn.
Qed.

Lemma fetch_show_keeps_fetched_seasons_witness :
  ∃ w',
    fetch_show Sample.client "121361" Sample.cache_file1 Sample.world0
    = (Resolved {| series := Sample.series1;
                   seasons := official_fetched Sample.client
                                (series_seasons Sample.series1) |}, w') ∧
    files w'
    = <[Sample.cache_file1 :=
          {| mtime := now Sample.world0;
             content := Some {| series := Sample.series1;
                                seasons := official_fetched Sample.client
                                             (series_seasons Sample.series1) |} |}]>
        (files Sample.world0).
Proof.
  apply (fetch_show_keeps_fetched_seasons Sample.client "121361" Sample.cache_file1
           Sample.world0 Sample.series1).
  - reflexivity.
  - repeat constructor. by eexists.
  - reflexivity.
Defined.

Lemma resolve_id_world tvdb_client show_title show_year tvdb_id w :
  let w' := (resolve_id tvdb_client show_title show_year tvdb_id w).2 in
  files w' = files w ∧ now w' = now w ∧ write_error w' = write_error w.
Proof.
  unfold resolve_id. destruct (no_id tvdb_id); [|done].
  destruct (search tvdb_client show_title) as [[|r results]|e]; simpl; [done| |done].
  by destruct (best_match show_year (r :: results)).
Qed.

Lemma fetch_show_failed_world tvdb_client tvdb_id cache_file w error w' :
  fetch_show tvdb_client tvdb_id cache_file w = (Failed error, w') →
  ∃ e, error = "TVDB API error: " ++ e ∧
       (files w' = files w ∨
        (write_error w cache_file = Some (DumpFailed e) ∧ truncated cache_file w w')).
Proof.
  unfold fetch_show, truncated.
  destruct (get_series_extended tvdb_client tvdb_id) as [series_data|e].
  - destruct (fetch_seasons_world tvdb_client (series_seasons series_data) []
                (record (FetchedSeries tvdb_id) w)) as (Hf & Hn & He & _).
    destruct (fetch_seasons _ _ _ _) as [[fetched|e] w1]; simpl in *.
    + unfold save_cache. rewrite He.
      destruct (write_error w cache_file) as [[e|e]|]; [| |done].
      * intros [= <- <-]. exists e. split; [done|]. by left.
      * intros [= <- <-]. exists e. split; [done|]. right. simpl.
        by rewrite Hf, Hn.
    + intros [= <- <-]. exists e. split; [done|]. by left.
  - intros [= <- <-]. exists e. split; [done|]. by left.
Qed.

(** X7. The error of a resolution that fails is never empty and has one of
    four forms: "Not found on TVDB", "No suitable match found",
    "TVDB search error: ..." (these three only when no identifier was given)
    or "TVDB API error: ...".  The cache directory is as it was, with one
    exception: when the data was fetched and the dump into the cache file
    failed after the file had been opened for writing, the cache file of
    the identifier is left truncated, stamped with the current time and not
    parseable, and the error is the API error with the text of that
    failure. *)
Theorem failed_resolution_taxonomy
    (tvdb_client : TvdbClient) (show_title : string) (show_year : option Z)
    (tvdb_id : option string) (w : World) (error : string) (w' : World) :
  get_tvdb_data tvdb_client show_title show_year tvdb_id w = (Failed error, w') →
  error ≠ "" ∧
  ((no_id tvdb_id = true ∧
    (error = "Not found on TVDB" ∨ error = "No suitable match found" ∨
     ∃ e, error = "TVDB search error: " ++ e))
   ∨ ∃ e, error = "TVDB API error: " ++ e) ∧
  (files w' = files w ∨
   ∃ id e, resolve_id tvdb_client show_title show_year tvdb_id w
           = (inl id, (resolve_id tvdb_client show_title show_year tvdb_id w).2) ∧
           write_error w (get_cache_filename id) = Some (DumpFailed e) ∧
           error = "TVDB API error: " ++ e ∧
           truncated (get_cache_filename id) w w').
Proof.
  unfold get_tvdb_data.
  pose proof (resolve_id_world tvdb_client show_title show_year tvdb_id w) as Hworld.
  assert (Hshape : ∀ e w1,
             resolve_id tvdb_client show_title show_year tvdb_id w = (inr e, w1) →
             no_id tvdb_id = true ∧
             (e = "Not found on TVDB" ∨ e = "No suitable match found" ∨
              ∃ m, e = "TVDB search error: " ++ m)).
  { intros e w1. unfold resolve_id. destruct (no_id tvdb_id); [|done].
    destruct (search tvdb_client show_title) as [[|r results]|m].
    - intros [= <- _]. split; [done|]. by left.
    - destruct (best_match show_year (r :: results)); [done|].
      intros [= <- _]. split; [done|]. right. by left.
    - intros [= <- _]. split; [done|]. right. right. by eexists. }
  destruct (resolve_id tvdb_client show_title show_year tvdb_id w) as [[id|e] w1].
  - simpl in Hworld. destruct Hworld as (Hf & Hn & He).
    assert (Hfetch : ∀ w2, files w2 = files w → now w2 = now w →
               write_error w2 = write_error w →
               fetch_show tvdb_client id (get_cache_filename id) w2 = (Failed error, w') →
               error ≠ "" ∧
               ((no_id tvdb_id = true ∧
                 (error = "Not found on TVDB" ∨ error = "No suitable match found" ∨
                  ∃ e, error = "TVDB search error: " ++ e))
                ∨ ∃ e, error = "TVDB API error: " ++ e) ∧
               (files w' = files w ∨
                ∃ id' e, (@inl string string id, w1) = (inl id', (@inl string string id, w1).2) ∧
                         write_error w (get_cache_filename id') = Some (DumpFailed e) ∧
                         error = "TVDB API error: " ++ e ∧
                         truncated (get_cache_filename id') w w')).
    { intros w2 Hfiles Hnow Herror Hfail.
      destruct (fetch_show_failed_world _ _ _ _ _ _ Hfail) as (e & -> & Hcache).
      split_and!; [done| right; by eexists |].
      destruct Hcache as [Hsame|[Hdump Htrunc]]; [left; congruence|].
      right. exists id, e. split_and!; [done| congruence | done |].
      unfold truncated in *. by rewrite Htrunc, Hfiles, Hnow. }
    destruct (is_cache_valid w1 (get_cache_filename id)); [|by apply Hfetch].
    destruct (files (record (ReadCache (get_cache_filename id)) w1)
                !! get_cache_filename id ≫= content); [done|].
    by apply Hfetch.
  - intros [= <- <-]. simpl in Hworld. destruct Hworld as (Hf & _ & _).
    destruct (Hshape e w1 eq_refl) as [Hid Hform].
    split_and!; [|by left|by left].
    destruct Hform as [->|[->|[m ->]]]; done.
Qed.

Lemma failed_resolution_taxonomy_witness :
  "TVDB API error: No space left on device" ≠ "" ∧
  files (get_tvdb_data Sample.client "The Show" (Some 2005%Z) (Some "121361")
           Sample.world_full).2
  ≠ files Sample.world_full.
Proof.
  destruct (failed_resolution_taxonomy Sample.client "The Show" (Some 2005%Z)
              (Some "121361") Sample.world_full "TVDB API error: No space left on device"
              (get_tvdb_data Sample.client "The Show" (Some 2005%Z) (Some "121361")
                 Sample.world_full).2
              eq_refl) as (Herror & _ & Hfiles).
  split; [exact Herror|].
  intros Hsame.
  apply (f_equal (fun m => m !! Sample.cache_file1)) in Hsame.
  vm_compute in Hsame. discriminate Hsame.
Defined.

Lemma get_tvdb_data_given tvdb_client show_title show_year tvdb_id w :
  no_id (Some tvdb_id) = false →
  get_tvdb_data tvdb_client show_title show_year (Some tvdb_id) w
  = let cache_file := get_cache_filename tvdb_id in
    if is_cache_valid w cache_file then
      match files w !! cache_file ≫= content with
      | Some show_data => (Resolved show_data, record (ReadCache cache_file) w)
      | None => fetch_show tvdb_client tvdb_id cache_file (record (ReadCache cache_file) w)
      end
    else fetch_show tvdb_client tvdb_id cache_file w.
Proof. intros Hid. unfold get_tvdb_data, resolve_id. by rewrite Hid. Qed.

(** X8. What a fetch writes, a later call reads back: after [fetch_show] has
    returned the data of an identifier, a call of [get_tvdb_data] for that
    identifier, by any client and for any title, in any later world that still
    holds the cache file, returns the same data from the cache without a
    call to the catalogue as long as less than 14 days have passed, and
    fetches again once 14 days or more have passed. *)
Theorem fetched_data_is_reused_within_window
    (tvdb_client : TvdbClient) (tvdb_id : string) (w : World)
    (show_data : ShowData) (w' : World)
    (later_client : TvdbClient) (show_title : string) (show_year : option Z) (later : World) :
  let cache_file := get_cache_filename tvdb_id in
  fetch_show tvdb_client tvdb_id cache_file w = (Resolved show_data, w') →
  no_id (Some tvdb_id) = false →
  files later !! cache_file = files w' !! cache_file →
  let again := get_tvdb_data later_client show_title show_year (Some tvdb_id) later in
  ((now later - now w < timedelta_days CACHE_EXPIRY_DAYS)%Z →
   again = (Resolved show_data, record (ReadCache cache_file) later)) ∧
  ((timedelta_days CACHE_EXPIRY_DAYS ≤ now later - now w)%Z →
   again = fetch_show later_client tvdb_id cache_file later).
Proof.
  intros cache_file Hfetch Hid Hfile again.
  destruct (fetch_show_writes _ _ _ _ _ _ Hfetch) as [Hwritten _].
  fold cache_file in Hwritten. rewrite Hwritten in Hfile.
  subst again. rewrite (get_tvdb_data_given _ _ _ _ _ Hid). simpl. fold cache_file.
  split.
  - intros Hfresh.
    assert (is_cache_valid later cache_file = true) as ->.
    { apply is_cache_valid_fresh. eexists. by split. }
    by rewrite Hfile.
  - intros Hold.
    destruct (is_cache_valid later cache_file) eqn:Hvalid; [|done].
    apply is_cache_valid_fresh in Hvalid as (f & Hf & Hfresh).
    rewrite Hfile in Hf. injection Hf as <-. simpl in Hfresh. lia.
Qed.

Lemma fetched_data_is_reused_within_window_witness :
  get_tvdb_data Sample.failing_client "Another Title" None (Some "121361")
    (fetch_show Sample.client "121361" Sample.cache_file1 Sample.world0).2
  = (Resolved Sample.data1,
     record (ReadCache Sample.cache_file1)
       (fetch_show Sample.client "121361" Sample.cache_file1 Sample.world0).2).
Proof.
  refine (proj1 (fetched_data_is_reused_within_window Sample.client "121361" Sample.world0
                   Sample.data1 _ Sample.failing_client "Another Title" None _ _ _ _) _).
  - reflexivity.
  - reflexivity.
  - reflexivity.
  - by vm_compute.
Defined.

Lemma skips_other_type season skip : skips season = Ok skip → skip = other_type season.
Proof.
  unfold skips, other_type, type_name.
  destruct (ref_type season) as [| |[|a rest]|[[|a rest]|]]; try done;
    by intros [= <-].
Qed.

Lemma fetch_seasons_log tvdb_client refs fetched w seasons' w' :
  fetch_seasons tvdb_client refs fetched w = (Ok seasons', w') →
  actions w'
  = (actions w ++ map (fun season => FetchedSeason (ref_id season))
                    (List.filter (fun season => negb (other_type season)) refs))%list.
Proof.
  revert fetched w. induction refs as [|season rest IH]; intros fetched w.
  - simpl. intros [= _ <-]. by rewrite app_nil_r.
  - cbn [fetch_seasons List.filter].
    destruct (skips season) as [skip|e] eqn:Hskip; [|done].
    rewrite <- (skips_other_type _ _ Hskip).
    destruct skip; [apply IH|]. cbn [negb].
    assert (∀ acc, fetch_seasons tvdb_client rest acc
                     (record (FetchedSeason (ref_id season)) w) = (Ok seasons', w') →
                   actions w'
                   = (actions w ++ map (fun season => FetchedSeason (ref_id season))
                                     (season :: List.filter
                                                  (fun season => negb (other_type season))
                                                  rest))%list) as Hrest.
    { intros acc Hacc. rewrite (IH _ _ Hacc). simpl. by rewrite <- app_assoc. }
    destruct (get_season_extended tvdb_client (ref_id season)); apply Hrest.
Qed.

(** X9. A fetch that returns the data has asked the catalogue for the series
    once and then, each once and in the order of the series' list, for the
    seasons that are not of another type, that is, all but those whose type
    has a name other than "official"; it has ended with the cache write.  A
    season of another type is never fetched. *)
Theorem fetch_asks_for_official_seasons_only
    (tvdb_client : TvdbClient) (tvdb_id cache_file : string) (w : World)
    (show_data : ShowData) (w' : World) :
  fetch_show tvdb_client tvdb_id cache_file w = (Resolved show_data, w') →
  actions w'
  = (actions w
     ++ FetchedSeries tvdb_id
        :: map (fun season => FetchedSeason (ref_id season))
             (List.filter (fun season => negb (other_type season))
                (series_seasons (series show_data)))
     ++ [WroteCache cache_file])%list.
Proof.
  unfold fetch_show.
  destruct (get_series_extended tvdb_client tvdb_id) as [series_data|e]; [|done].
  destruct (fetch_seasons _ _ _ _) as [[fetched|e] w1] eqn:Hfetch; [|done].
  apply fetch_seasons_log in Hfetch.
  unfold save_cache. destruct (write_error w1 cache_file) as [[e|e]|]; [done..|].
  intros [= <- <-]. simpl. rewrite Hfetch. simpl. by rewrite <- !app_assoc.
Qed.

Lemma fetch_asks_for_official_seasons_only_witness :
  actions (fetch_show Cases.specials_client "121361" Sample.cache_file1 Sample.world0).2
  = [FetchedSeries "121361"; FetchedSeason 10; FetchedSeason 13;
     WroteCache Sample.cache_file1].
Proof.
  exact (fetch_asks_for_official_seasons_only Cases.specials_client "121361"
           Sample.cache_file1 Sample.world0
           {| series := Cases.specials_series;
              seasons := [Sample.season1; Sample.season1] |}
           (fetch_show Cases.specials_client "121361" Sample.cache_file1 Sample.world0).2
           eq_refl).
Defined.

Lemma search_without_year_takes_first_witness :
  resolve_id Sample.client "The Show" None None Sample.world0
  = (inl "70001", record (Searched "The Show") Sample.world0).
Proof.
  apply (search_without_year_takes_first Sample.client "The Show" None None Sample.world0
           {| sr_tvdb_id := "70001"; sr_name := "The Show"; sr_year := Some 1999%Z |}
           (tail Sample.hits)).
  - reflexivity.
  - reflexivity.
  - by left.
Defined.

(** ** The cache file of an identifier *)

Lemma append_inj_r (a b tail : string) : a ++ tail = b ++ tail → a = b.
Proof.
  assert (Hlen : ∀ x y : string, String.length (x ++ y) = String.length x + String.length y).
  { intros x y. induction x as [|c x IH]; [done|].
    change (S (String.length (x ++ y)) = S (String.length x + String.length y)).
    by rewrite IH. }
  revert b. induction a as [|c a IH]; intros b Heq.
  - destruct b as [|c' b]; [done|]. exfalso.
    apply (f_equal String.length) in Heq. rewrite !Hlen in Heq.
    simpl in Heq. lia.
  - destruct b as [|c' b].
    + exfalso. apply (f_equal String.length) in Heq. rewrite !Hlen in Heq.
      simpl in Heq. lia.
    + change (String c (a ++ tail) = String c' (b ++ tail)) in Heq.
      injection Heq as -> Heq. f_equal. by apply IH.
Qed.

(** X10. Two identifiers never share a cache file: [get_cache_filename] is
    injective. *)
Theorem get_cache_filename_inj (tvdb_id1 tvdb_id2 : string) :
  get_cache_filename tvdb_id1 = get_cache_filename tvdb_id2 → tvdb_id1 = tvdb_id2.
Proof.
  unfold get_cache_filename, CACHE_DIR.
  change ("./cache" ++ "/" ++ "tvdb_" ++ tvdb_id1 ++ ".json")
    with (String "." (String "/" (String "c" (String "a" (String "c" (String "h"
            (String "e" (String "/" (String "t" (String "v" (String "d" (String "b"
              (String "_" (tvdb_id1 ++ ".json")))))))))))))).
  change ("./cache" ++ "/" ++ "tvdb_" ++ tvdb_id2 ++ ".json")
    with (String "." (String "/" (String "c" (String "a" (String "c" (String "h"
            (String "e" (String "/" (String "t" (String "v" (String "d" (String "b"
              (String "_" (tvdb_id2 ++ ".json")))))))))))))).
  intros [= Heq]. by apply append_inj_r in Heq.
Qed.

Lemma get_cache_filename_inj_witness : "121361" = "121361".
Proof. apply get_cache_filename_inj. reflexivity. Defined.

(** ** A show that carries its identifier *)

Lemma fetch_seasons_no_search tvdb_client refs fetched w :
  ∀ t, Searched t ∈ actions (fetch_seasons tvdb_client refs fetched w).2 →
       Searched t ∈ actions w.
Proof.
  revert fetched w. induction refs as [|season rest IH]; intros fetched w t; simpl; [done|].
  destruct (skips season) as [[|]|e]; simpl; [apply IH| |done].
  assert (∀ acc, Searched t ∈ actions (fetch_seasons tvdb_client rest acc
                                         (record (FetchedSeason (ref_id season)) w)).2 →
                 Searched t ∈ actions w) as Hrest.
  { intros acc Hin. apply IH in Hin. simpl in Hin.
    apply elem_of_app in Hin as [Hin|Hin]; [done|].
    by apply list_elem_of_singleton in Hin. }
  destruct (get_season_extended tvdb_client (ref_id season)); apply Hrest.
Qed.

Lemma fetch_show_no_search tvdb_client tvdb_id cache_file w :
  ∀ t, Searched t ∈ actions (fetch_show tvdb_client tvdb_id cache_file w).2 →
       Searched t ∈ actions w.
Proof.
  intros t. unfold fetch_show.
  assert (Hseries : Searched t ∈ actions (record (FetchedSeries tvdb_id) w) →
                    Searched t ∈ actions w).
  { simpl. intros [Hin|Hin]%elem_of_app; [done|]. by apply list_elem_of_singleton in Hin. }
  destruct (get_series_extended tvdb_client tvdb_id) as [series_data|e]; [|done].
  pose proof (fetch_seasons_no_search tvdb_client (series_seasons series_data) []
                (record (FetchedSeries tvdb_id) w) t) as Hseasons.
  destruct (fetch_seasons _ _ _ _) as [[fetched|e] w1]; simpl in *; [|by auto].
  unfold save_cache. destruct (write_error w1 cache_file) as [[e|e]|]; simpl;
    [by auto..|].
  intros [Hin|Hin]%elem_of_app; [by auto|]. by apply list_elem_of_singleton in Hin.
Qed.

(** X12. A show whose guids hold "tvdb://ID" with a non-empty ID is never
    searched by title: whatever [process_show] does to the catalogue and the
    cache for it, it makes no search call. *)
Theorem show_with_identifier_is_not_searched
    (absolute_path : string -> string) (show : PlexShow) (plex_library_title : string)
    (tvdb_client : TvdbClient) (row_index : nat) (book : Workbook) (w : World)
    (tvdb_id : string) :
  extract_tvdb_id (guids show) = Some tvdb_id →
  tvdb_id ≠ "" →
  ∀ t, Searched t ∈ actions (process_show absolute_path show plex_library_title tvdb_client
                               row_index book w).1.2 →
       Searched t ∈ actions w.
Proof.
  intros Hguid Hid t.
  assert (no_id (Some tvdb_id) = false) as Hgiven by by destruct tvdb_id.
  assert (Hres : Searched t ∈ actions (get_tvdb_data tvdb_client (title show) (year show)
                                         (Some tvdb_id) w).2 →
                 Searched t ∈ actions w).
  { rewrite (get_tvdb_data_given _ _ _ _ _ Hgiven). simpl.
    assert (Hread : Searched t ∈ actions (record (ReadCache (get_cache_filename tvdb_id)) w) →
                    Searched t ∈ actions w).
    { simpl. intros [Hin|Hin]%elem_of_app; [done|].
      by apply list_elem_of_singleton in Hin. }
    destruct (is_cache_valid w (get_cache_filename tvdb_id)).
    - destruct (files w !! get_cache_filename tvdb_id ≫= content); [done|].
      intros Hin%fetch_show_no_search. by apply Hread.
    - apply fetch_show_no_search. }
  unfold process_show. rewrite Hguid.
  destruct (get_tvdb_data tvdb_client (title show) (year show) (Some tvdb_id) w)
    as [[tvdb_data|error] w1]; simpl in *; [|done].
  by destruct (process_seasons _ _ _ _ _ _ _ _) as [sheet returned].
Qed.

Lemma show_with_identifier_is_not_searched_witness :
  Searched "The Show" ∉ actions (process_show id Sample.show1 "TV" Sample.client 1
                                   setup_worksheets Sample.world0).1.2.
Proof.
  intros Hin.
  apply (show_with_identifier_is_not_searched id Sample.show1 "TV" Sample.client 1
           setup_worksheets Sample.world0 "121361") in Hin.
  - by apply elem_of_nil in Hin.
  - reflexivity.
  - discriminate.
Defined.

(** ** The sheets during a run *)

Lemma headers_not_empty :
  Forall (fun header => header ≠ "") headers ∧
  Forall (fun header => header ≠ "") error_headers.
Proof. split; by repeat constructor. Qed.

Lemma write_headers_lookup sheet col hs i c :
  Forall (fun header => header ≠ "") hs →
  write_headers sheet col hs !! (i, c)
  = if decide (i = 0 ∧ col ≤ c < col + length hs)
    then CellString <$> hs !! (c - col)
    else sheet !! (i, c).
Proof.
  intros Hhs. revert sheet col.
  induction Hhs as [|header rest Hheader _ IH]; intros sheet col;
    cbn [write_headers length].
  - case_decide as Hin; [lia|done].
  - rewrite IH. unfold write.
    destruct header as [|a header]; [done|].
    destruct (decide (i = 0 ∧ c = col)) as [[-> ->]|Hne].
    + rewrite lookup_insert_eq.
      repeat case_decide; try lia. by rewrite Nat.sub_diag.
    + rewrite lookup_insert_ne by (intros [= ? ?]; by apply Hne).
      assert (i = 0 → c ≠ col) as Hcol by (intros -> ->; by apply Hne).
      repeat case_decide; try done; try (exfalso; lia).
      replace (c - col) with (S (c - S col)) by lia. done.
Qed.

Lemma report_error_elsewhere book plex_library_title show_title show_year error i c :
  i ≠ 1 →
  let book' := report_error book plex_library_title show_title show_year error in
  main_sheet book' = main_sheet book ∧
  not_found_sheet book' !! (i, c) = not_found_sheet book !! (i, c) ∧
  error_sheet book' !! (i, c) = error_sheet book !! (i, c).
Proof.
  intros Hi. simpl. unfold report_error.
  destruct (Str.contains "Not found" error); simpl; split_and!; try done.
  - by apply (write_error_row_cells (not_found_sheet book)); left.
  - by apply (write_error_row_cells (error_sheet book)); left.
Qed.

Section Tidy.

Variable absolute_path : string -> string.
Variable tvdb : TvdbClient.

Lemma process_show_elsewhere show plex_library_title row book w i c :
  i ≠ 1 →
  let book' := (process_show absolute_path show plex_library_title tvdb row book w).1.1 in
  not_found_sheet book' !! (i, c) = not_found_sheet book !! (i, c) ∧
  error_sheet book' !! (i, c) = error_sheet book !! (i, c).
Proof.
  intros Hi.
  destruct (get_tvdb_data tvdb (title show) (year show) (extract_tvdb_id (guids show)) w)
    as [[tvdb_data|error] w'] eqn:Hres.
  - by rewrite (process_show_resolved _ _ _ _ _ _ _ _ _ Hres).
  - rewrite (process_show_failed _ _ _ _ _ _ _ _ _ Hres). simpl.
    by apply report_error_elsewhere.
Qed.

Lemma step_tidy r : tidy r → tidy (step absolute_path tvdb r).
Proof.
  intros (Hrow & Hmain & Hnf & Herr & Hlow). unfold step.
  destruct (phase r) as [libraries|library_title shows libraries
                        |library_title show shows libraries|libraries|].
  - destruct libraries as [|library libraries]; [done|]. by destruct (lib_search library).
  - destruct shows as [|show shows]; [done|]. by destruct (terminate r).
  - destruct (process_show_block absolute_path show library_title tvdb
                (row_index r) (wb r) (world r)) as [rows Hblock].
    pose proof (fun i c Hi => process_show_elsewhere show library_title
                                (row_index r) (wb r) (world r) i c Hi) as Helse.
    destruct (process_show absolute_path show library_title tvdb
                (row_index r) (wb r) (world r)) as [[book w] returned].
    simpl in Hblock, Helse. destruct Hblock as (Hsheet & _ & Hreturned).
    unfold tidy. cbn [row_index wb].
    split_and!.
    + destruct returned as [row'|]; simpl; lia.
    + intros c. rewrite Hsheet, write_rows_other by lia. apply Hmain.
    + intros c. destruct (Helse 0 c) as [-> _]; [lia|]. apply Hnf.
    + intros c. destruct (Helse 0 c) as [_ ->]; [lia|]. apply Herr.
    + intros i c Hi. destruct (Helse i c) as [-> ->]; [lia|]. by apply Hlow.
  - by destruct (terminate r).
  - done.
Qed.

Lemma run_tidy events r : tidy r → tidy (run absolute_path tvdb events r).
Proof.
  revert r. induction events as [|e rest IH]; intros r Hr; [done|].
  rewrite run_cons. apply IH. destruct e; [by apply step_tidy | done].
Qed.

Lemma start_tidy sections w : tidy (start sections w).
Proof.
  assert (Hsetup : ∀ p flag,
             tidy {| phase := p; row_index := 1; wb := setup_worksheets; world := w;
                     terminate := flag |}).
  { intros p flag. unfold tidy. cbn [row_index wb].
    split_and!; [lia | reflexivity | reflexivity | reflexivity |].
    intros i c Hi. unfold setup_worksheets. cbn [not_found_sheet error_sheet].
    rewrite !write_headers_lookup by apply headers_not_empty.
    rewrite !decide_False by lia. by rewrite lookup_empty. }
  assert (Hclosed : ∀ p flag,
             tidy {| phase := p; row_index := 1; wb := close setup_worksheets; world := w;
                     terminate := flag |}).
  { intros p flag. apply (Hsetup p flag). }
  unfold start. destruct sections as [sections|]; [|apply Hclosed].
  destruct (List.filter _ sections); [apply Hclosed | apply Hsetup].
Qed.

End Tidy.

(** X13. The header rows survive the run: at every point of a run of [main],
    under any interleaving of signals, row 0 of the main sheet holds the
    thirteen column titles and row 0 of each error sheet its four, and nothing
    else. *)
Theorem headers_survive_the_run
    (absolute_path : string -> string) (tvdb : TvdbClient)
    (sections : option (list Library)) (w : World) (events : list Event) (c : nat) :
  let r := run absolute_path tvdb events (start sections w) in
  main_sheet (wb r) !! (0, c) = CellString <$> headers !! c ∧
  not_found_sheet (wb r) !! (0, c) = CellString <$> error_headers !! c ∧
  error_sheet (wb r) !! (0, c) = CellString <$> error_headers !! c.
Proof.
  destruct (run_tidy absolute_path tvdb events _ (start_tidy sections w))
    as (_ & Hmain & Hnf & Herr & _).
  cbv zeta. rewrite Hmain, Hnf, Herr. unfold setup_worksheets.
  cbn [main_sheet not_found_sheet error_sheet].
  rewrite !write_headers_lookup by apply headers_not_empty.
  rewrite Nat.sub_0_r, !lookup_empty. clear Hmain Hnf Herr.
  split_and!; case_decide as Hin; try done;
    symmetry; apply fmap_None, lookup_ge_None; lia.
Qed.

(** X14. The error sheets never grow: at every point of a run of [main],
    however many shows have failed, the not-found sheet and the other-errors
    sheet hold nothing below row 1, so each shows at most one error row,
    written over by every later error of its kind. *)
Theorem error_sheets_hold_one_row
    (absolute_path : string -> string) (tvdb : TvdbClient)
    (sections : option (list Library)) (w : World) (events : list Event) (i c : nat) :
  let r := run absolute_path tvdb events (start sections w) in
  2 ≤ i →
  not_found_sheet (wb r) !! (i, c) = None ∧ error_sheet (wb r) !! (i, c) = None.
Proof.
  intros r Hi.
  destruct (run_tidy absolute_path tvdb events _ (start_tidy sections w))
    as (_ & _ & _ & _ & Hlow).
  by apply Hlow.
Qed.

Lemma error_sheets_hold_one_row_witness :
  let r := run id Sample.failing_client (repeat Step 12)
             (start (Some [Sample.tv]) Sample.world0) in
  not_found_sheet (wb r) !! (2, 0) = None ∧ error_sheet (wb r) !! (2, 0) = None.
Proof.
  apply (error_sheets_hold_one_row id Sample.failing_client (Some [Sample.tv])
           Sample.world0 (repeat Step 12) 2 0).
  lia.
Defined.

(** ** Runs of [main] from start to end *)

Section Runs.

Variable absolute_path : string -> string.
Variable tvdb : TvdbClient.

Abbreviation run' := (run absolute_path tvdb).
Abbreviation step' := (step absolute_path tvdb).

(** A finished run stays as it is; a signal can only set the flag. *)
Lemma run_finished events r :
  phase r = Finished →
  phase (run' events r) = Finished ∧ wb (run' events r) = wb r ∧
  world (run' events r) = world r ∧ row_index (run' events r) = row_index r.
Proof.
  revert r. induction events as [|e rest IH]; intros r Hphase; [done|].
  rewrite run_cons. destruct e; cbn [react].
  - unfold step. rewrite Hphase. by apply IH.
  - destruct (IH (signal_handler r) Hphase) as (? & ? & ? & ?). done.
Qed.

Lemma run_repeat_finished k r : phase r = Finished → run' (repeat Step k) r = r.
Proof.
  intros Hphase. induction k as [|k IH]; [done|].
  cbn [repeat]. rewrite run_cons. cbn [react]. unfold step. by rewrite Hphase.
Qed.

Lemma run_shows library_title shows libraries row book w :
  run' (repeat Step (2 * length shows))
    {| phase := AtShows library_title shows libraries; row_index := row; wb := book;
       world := w; terminate := false |}
  = let '(book', w', row') :=
      process_shows absolute_path tvdb library_title shows (book, w, row) in
    {| phase := AtShows library_title [] libraries; row_index := row'; wb := book';
       world := w'; terminate := false |}.
Proof.
  revert row book w. induction shows as [|show shows IH]; intros row book w; [done|].
  replace (2 * length (show :: shows)) with (2 + 2 * length shows) by (simpl; lia).
  rewrite repeat_app, run_app. cbn [repeat]. rewrite !run_cons.
  cbn [react run fold_left]. unfold step at 2. cbn [phase terminate].
  unfold goto. cbn [row_index wb world terminate]. unfold step. cbn [phase].
  cbn [row_index wb world terminate process_shows].
  destruct (process_show absolute_path show library_title tvdb row book w) as [[book1 w1] row1].
  apply IH.
Qed.

Lemma run_libraries libraries row book w k :
  run' (repeat Step (budget libraries + k))
    {| phase := AtLibraries libraries; row_index := row; wb := book; world := w;
       terminate := false |}
  = let '(book', w', row') :=
      process_libraries absolute_path tvdb libraries (book, w, row) in
    {| phase := Finished; row_index := row'; wb := close book'; world := w';
       terminate := false |}.
Proof.
  revert row book w. induction libraries as [|library rest IH]; intros row book w.
  - cbn [budget process_libraries]. replace (1 + k) with (S k) by lia.
    cbn [repeat]. rewrite run_cons. cbn [react]. unfold step. cbn [phase].
    by apply run_repeat_finished.
  - cbn [budget process_libraries].
    destruct (lib_search library) as [shows|] eqn:Hsearch.
    + replace (3 + 2 * length shows + budget rest + k)
        with (1 + (2 * length shows + (2 + (budget rest + k)))) by lia.
      rewrite repeat_app, run_app. cbn [repeat]. rewrite run_cons.
      cbn [react run fold_left]. unfold step at 1. cbn [phase]. rewrite Hsearch.
      unfold goto. cbn [row_index wb world terminate].
      rewrite repeat_app, run_app, run_shows.
      destruct (process_shows absolute_path tvdb (lib_title library) shows (book, w, row))
        as [[book1 w1] row1].
      rewrite repeat_app, run_app. cbn [repeat]. rewrite !run_cons.
      cbn [react run fold_left]. unfold step. cbn [phase terminate].
      unfold goto. cbn [phase row_index wb world terminate].
      apply IH.
    + replace (1 + k) with (S k) by lia.
      cbn [repeat]. rewrite run_cons. cbn [react]. unfold step. cbn [phase].
      rewrite Hsearch. by apply run_repeat_finished.
Qed.

End Runs.

(** X15. With no signal, a run of [main] is the nested loop of the script:
    after enough program steps it has ended with the workbook saved, and the
    sheets, the outside world and the next free row are what processing the
    show-type libraries in order gives, every show of a library in turn, each
    starting from what the one before left (a show whose call raises leaves
    the row index where it was), with the first show at row 1; a library
    whose listing raises ends the processing there. *)
Theorem uninterrupted_run_is_the_nested_loop
    (absolute_path : string -> string) (tvdb : TvdbClient)
    (sections : list Library) (w : World) (n : nat) :
  let libraries :=
    List.filter (fun section => String.eqb (lib_type section) "show") sections in
  budget libraries ≤ n →
  let r := run absolute_path tvdb (repeat Step n) (start (Some sections) w) in
  let '(book, w', row) :=
    process_libraries absolute_path tvdb libraries (setup_worksheets, w, 1) in
  phase r = Finished ∧ wb r = close book ∧ world r = w' ∧ row_index r = row ∧
  terminate r = false.
Proof.
  intros libraries Hn r. subst r. unfold start. fold libraries. clearbody libraries.
  destruct libraries as [|library rest].
  - cbn [process_libraries]. rewrite run_repeat_finished by done. done.
  - set (libraries := library :: rest) in *.
    replace n with (budget libraries + (n - budget libraries)) by lia.
    unfold goto. cbn [row_index wb world terminate].
    rewrite run_libraries.
    by destruct (process_libraries absolute_path tvdb libraries (setup_worksheets, w, 1))
      as [[book w'] row].
Qed.

Lemma uninterrupted_run_is_the_nested_loop_witness :
  phase (run id Sample.client (repeat Step 8)
           (start (Some [Sample.films; Sample.tv]) Sample.world0)) = Finished.
Proof.
  pose proof (uninterrupted_run_is_the_nested_loop id Sample.client
                [Sample.films; Sample.tv] Sample.world0 8) as Hrun.
  cbv zeta in Hrun.
  destruct (process_libraries id Sample.client _ _) as [[book w'] row].
  apply Hrun. vm_compute. lia.
Defined.

(** X16. With no library of type "show", or when connecting or listing the
    sections raises, [main] ends at once: at every point of the run the
    workbook is saved and holds the header rows only, the row index is 1 and
    the outside world is untouched (no call to the catalogue, no cache
    access). *)
Theorem no_tv_library_ends_at_once
    (absolute_path : string -> string) (tvdb : TvdbClient)
    (sections : option (list Library)) (w : World) (events : list Event) :
  match sections with
  | None => True
  | Some sections =>
      List.filter (fun section => String.eqb (lib_type section) "show") sections = []
  end →
  let r := run absolute_path tvdb events (start sections w) in
  phase r = Finished ∧ wb r = close setup_worksheets ∧ world r = w ∧ row_index r = 1.
Proof.
  intros Hnone r. subst r.
  assert (start sections w
          = {| phase := Finished; row_index := 1; wb := close setup_worksheets;
               world := w; terminate := false |}) as ->.
  { unfold start. destruct sections as [sections|]; [|done]. by rewrite Hnone. }
  by apply run_finished.
Qed.

Lemma no_tv_library_ends_at_once_witness :
  phase (run id Sample.client [Step; Signal; Step]
           (start (Some [Sample.films]) Sample.world0)) = Finished.
Proof.
  apply (no_tv_library_ends_at_once id Sample.client (Some [Sample.films]) Sample.world0
           [Step; Signal; Step]).
  reflexivity.
Defined.

(** X17. A library whose listing raises ends the whole run: from the point
    where [main] is about to list it, the first program step ends the run with
    the workbook saved as it stood, and the libraries after it are never
    visited (no row, no action on the outside world is added). *)
Theorem listing_failure_ends_the_run
    (absolute_path : string -> string) (tvdb : TvdbClient)
    (r : Run) (library : Library) (rest : list Library) (events : list Event) :
  phase r = AtLibraries (library :: rest) →
  lib_search library = None →
  1 ≤ steps events →
  let r' := run absolute_path tvdb events r in
  phase r' = Finished ∧ wb r' = close (wb r) ∧ world r' = world r ∧
  row_index r' = row_index r.
Proof.
  intros Hphase Hsearch Hsteps. simpl. revert r Hphase Hsteps.
  induction events as [|e events IH]; intros r Hphase Hsteps; [simpl in Hsteps; lia|].
  rewrite run_cons. destruct e; cbn [react].
  - unfold step. rewrite Hphase, Hsearch.
    by apply (run_finished absolute_path tvdb events (finish r)).
  - apply (IH (signal_handler r)); [done|]. simpl in Hsteps. done.
Qed.

Lemma listing_failure_ends_the_run_witness :
  let r' := run id Sample.client [Signal; Step; Step; Step] Cases.at_unlisted in
  phase r' = Finished ∧ wb r' = close (wb Cases.at_unlisted) ∧
  world r' = world Cases.at_unlisted ∧ row_index r' = row_index Cases.at_unlisted.
Proof.
  apply (listing_failure_ends_the_run id Sample.client Cases.at_unlisted Cases.unlisted
           [Sample.tv] [Signal; Step; Step; Step]).
  - reflexivity.
  - reflexivity.
  - simpl. lia.
Defined.

Lemma step_terminate absolute_path tvdb r :
  terminate (step absolute_path tvdb r) = terminate r.
Proof.
  unfold step.
  destruct (phase r) as [libraries|library_title shows libraries
                        |library_title show shows libraries|libraries|].
  - destruct libraries as [|library libraries]; [done|]. by destruct (lib_search library).
  - destruct shows as [|show shows]; [done|]. by destruct (terminate r) eqn:Hflag.
  - by destruct (process_show _ _ _ _ _ _ _) as [[? ?] ?].
  - by destruct (terminate r) eqn:Hflag.
  - done.
Qed.

(** X18. The interrupt flag is set by the signal handler only and never
    cleared: at every point of a run it is set exactly when it was set at the
    start or a signal has arrived since. *)
Theorem flag_is_set_by_signals_only
    (absolute_path : string -> string) (tvdb : TvdbClient) (r : Run) (events : list Event) :
  terminate (run absolute_path tvdb events r) = terminate r || existsb is_signal events.
Proof.
  revert r. induction events as [|e events IH]; intros r.
  - simpl. by rewrite orb_false_r.
  - rewrite run_cons, IH. destruct e; cbn [react existsb is_signal].
    + by rewrite step_terminate.
    + simpl. by rewrite orb_true_r.
Qed.

(** ** The type of a season *)

(** X19. Whenever the fetch loop can inspect the type of every season of a
    series (no subscript raises), the season count written in column 3 is the
    number of season entries whose type is [null]: a season typed by an
    object, official or not, is not counted. *)
Theorem season_count_is_null_typed_count (refs : list SeasonRef) :
  Forall (fun season => ∃ skip, skips season = Ok skip) refs →
  length (List.filter counted_official refs) = length (List.filter null_typed refs).
Proof.
  induction 1 as [|season rest [skip Hskip] _ IH]; [done|].
  cbn [List.filter]. unfold counted_official at 1, null_typed at 1.
  unfold skips in Hskip.
  destruct (ref_type season) as [| |[|c s]|inner]; simpl; try done; by rewrite IH.
Qed.

Lemma season_count_is_null_typed_count_witness :
  length (List.filter counted_official [Sample.official_ref; Cases.specials_ref])
  = length (List.filter null_typed [Sample.official_ref; Cases.specials_ref]).
Proof.
  apply season_count_is_null_typed_count. repeat constructor; by eexists.
Defined.

Lemma fetch_seasons_raises tvdb_client before bad after fetched w e :
  Forall (fun season => ∃ skip, skips season = Ok skip) before →
  skips bad = Raise e →
  let out := fetch_seasons tvdb_client (before ++ bad :: after)%list fetched w in
  out.1 = Raise e ∧
  actions out.2
  = (actions w ++ map (fun season => FetchedSeason (ref_id season))
                    (List.filter is_official before))%list.
Proof.
  intros Hbefore Hbad. revert fetched w.
  induction Hbefore as [|season before [skip Hskip] _ IH]; intros fetched w; simpl.
  - rewrite Hbad. simpl. by rewrite app_nil_r.
  - unfold is_official at 1. rewrite Hskip. destruct skip; [apply IH|].
    assert (∀ acc,
               let out := fetch_seasons tvdb_client (before ++ bad :: after)%list acc
                            (record (FetchedSeason (ref_id season)) w) in
               out.1 = Raise e ∧
               actions out.2
               = (actions w ++ map (fun season => FetchedSeason (ref_id season))
                                 (season :: List.filter is_official before))%list) as Hrest.
    { intros acc. destruct (IH acc (record (FetchedSeason (ref_id season)) w)) as [Hres Hlog].
      split; [done|]. rewrite Hlog. simpl. by rewrite <- app_assoc. }
    destruct (get_season_extended tvdb_client (ref_id season)); apply Hrest.
Qed.

(** X20. One season entry whose type cannot be inspected (the key is missing,
    or it holds a non-empty plain string) fails the whole show: the official
    seasons before it have been fetched, the seasons after it are not, the
    resolver returns "TVDB API error: " followed by the text of the exception,
    and nothing is written to the cache. *)
Theorem uninspectable_season_fails_the_show
    (tvdb_client : TvdbClient) (tvdb_id cache_file : string) (w : World)
    (series_data : SeriesData) (before after : list SeasonRef) (bad : SeasonRef)
    (e : string) :
  get_series_extended tvdb_client tvdb_id = Ok series_data →
  series_seasons series_data = (before ++ bad :: after)%list →
  Forall (fun season => ∃ skip, skips season = Ok skip) before →
  skips bad = Raise e →
  let out := fetch_show tvdb_client tvdb_id cache_file w in
  out.1 = Failed ("TVDB API error: " ++ e) ∧
  files out.2 = files w ∧
  actions out.2
  = (actions w ++ FetchedSeries tvdb_id
                  :: map (fun season => FetchedSeason (ref_id season))
                       (List.filter is_official before))%list.
Proof.
  intros Hseries Hseasons Hbefore Hbad. simpl. unfold fetch_show.
  rewrite Hseries, Hseasons.
  destruct (fetch_seasons_raises tvdb_client before bad after []
              (record (FetchedSeries tvdb_id) w) e Hbefore Hbad) as [Hres Hlog].
  destruct (fetch_seasons_world tvdb_client (before ++ bad :: after)%list []
              (record (FetchedSeries tvdb_id) w)) as (Hf & _ & _ & _).
  destruct (fetch_seasons _ _ _ _) as [res w1]. simpl in *. subst res. simpl.
  split_and!; [done | done |]. rewrite Hlog. by rewrite <- app_assoc.
Qed.

Lemma uninspectable_season_fails_the_show_witness :
  let out := fetch_show Cases.mixed_client "121361" Sample.cache_file1 Sample.world0 in
  out.1 = Failed ("TVDB API error: " ++ "'type'") ∧
  files out.2 = files Sample.world0 ∧
  actions out.2
  = (actions Sample.world0
     ++ FetchedSeries "121361"
        :: map (fun season => FetchedSeason (ref_id season))
             (List.filter is_official [Sample.official_ref; Cases.specials_ref]))%list.
Proof.
  apply (uninspectable_season_fails_the_show Cases.mixed_client "121361" Sample.cache_file1
           Sample.world0 Cases.mixed_series [Sample.official_ref; Cases.specials_ref]
           [Sample.official_ref] Cases.untyped_ref "'type'").
  - reflexivity.
  - reflexivity.
  - repeat constructor; by eexists.
  - reflexivity.
Defined.
